(** * ns-3 core: the [Simulator] facade (src/core/model/simulator.cc)

    A shallow embedding of the process-wide [Simulator] entry point: the
    static implementation pointer behind [PeekImpl], its lazy construction in
    [GetImpl], the teardown in [Simulator::Destroy], and every forwarding
    member function of the facade.

    The engine behind the pointer is the abstract class [SimulatorImpl]; its
    virtual member functions are an interface here (a type class), so the
    results on the facade hold for every engine implementation.  Objects live
    in a store indexed by references, because the facade and the caller of
    [SetImplementation] may hold the same object.

    The [NS_LOG_*] macros are taken with logging disabled (its default): they
    have no effect on the state modelled here. *)

From Stdlib Require Import ZArith String List Lia.
From stdpp Require Import base option gmap strings list.

Local Open Scope Z_scope.

(** ** Values crossing the facade *)

(** [Time]: an integral virtual-time value. *)
Definition Time : Type := Z.

(** A reference to an object of the store (a [SimulatorImpl *]). *)
Abbreviation ref := positive.

(** An [ObjectFactory] after [SetTypeId]: the name of the type it builds. *)
Definition ObjectFactory : Type := string.

(** The two functions whose addresses [GetImpl] hands to the logging
    framework. *)
Inductive printer : Type :=
| DefaultTimePrinter
| DefaultNodePrinter.

(** The virtual member functions of [SimulatorImpl]. *)
Inductive method : Type :=
| MDestroy | MIsFinished | MStop | MStopAt | MSchedule | MScheduleWithContext
| MScheduleNow | MScheduleDestroy | MRemove | MCancel | MIsExpired | MRun
| MNow | MGetDelayLeft | MGetMaximumSimulationTime | MSetScheduler
| MGetSystemId | MGetContext | MGetEventCount.

(** What the facade does to the world around it, in program order. *)
Inductive action : Type :=
| ACreate (p : ref)                       (* factory.Create<SimulatorImpl> () *)
| AStore (v : option ref)                 (* *pimpl = v *)
| ACall (p : ref) (m : method)            (* p->m (...) *)
| ARef (p : ref)                          (* GetPointer (ptr), Ptr (raw) *)
| AUnref (p : ref)                        (* p->Unref () *)
| ATimePrinter (h : option printer)       (* LogSetTimePrinter (h) *)
| ANodePrinter (h : option printer)       (* LogSetNodePrinter (h) *)
| AClearMarkedTimes                       (* Time::ClearMarkedTimes () *)
| ADesTrace (now delay : Time)            (* DesMetrics::Get ()->Trace *)
| ADesTraceWithContext (context : Z) (now delay : Time).

(** The fatal message of [Simulator::SetImplementation]. *)
Definition SetImplementation_late : string :=
  "It is not possible to set the implementation after calling any Simulator:: function. Call Simulator::SetImplementation earlier or after Simulator::Destroy."%string.

(** Initial values of the two [GlobalValue]s of the file. *)
Definition DefaultSimulatorImpl_name : string := "ns3::DefaultSimulatorImpl"%string.
Definition MapScheduler_name : string := "ns3::MapScheduler"%string.

(** ** The engine interface *)

(** The abstract class [SimulatorImpl] (simulator-impl.h) is a parameter of
    the facade: one field for each virtual member function simulator.cc
    calls, and one for what the object factory builds. *)

(** A virtual call either returns a value and leaves the engine changed, or
    it hits a fatal condition of the engine (a message). *)
Definition eres (Engine A : Type) : Type := (string + A * Engine)%type.

Class SimulatorImpl (Engine EventImpl EventId : Type) : Type := {
  (* ObjectFactory::Create<SimulatorImpl> at a registered type name *)
  Create : string -> Engine;
  impl_Destroy : Engine -> eres Engine unit;
  impl_IsFinished : Engine -> eres Engine bool;
  impl_Stop : Engine -> eres Engine unit;
  impl_StopAt : Time -> Engine -> eres Engine unit;
  impl_Schedule : Time -> EventImpl -> Engine -> eres Engine EventId;
  impl_ScheduleWithContext : Z -> Time -> EventImpl -> Engine -> eres Engine unit;
  impl_ScheduleNow : EventImpl -> Engine -> eres Engine EventId;
  impl_ScheduleDestroy : EventImpl -> Engine -> eres Engine EventId;
  impl_Remove : EventId -> Engine -> eres Engine unit;
  impl_Cancel : EventId -> Engine -> eres Engine unit;
  impl_IsExpired : EventId -> Engine -> eres Engine bool;
  impl_Run : Engine -> eres Engine unit;
  impl_Now : Engine -> eres Engine Time;
  impl_GetDelayLeft : EventId -> Engine -> eres Engine Time;
  impl_GetMaximumSimulationTime : Engine -> eres Engine Time;
  impl_SetScheduler : ObjectFactory -> Engine -> eres Engine unit;
  impl_GetSystemId : Engine -> eres Engine Z;
  impl_GetContext : Engine -> eres Engine Z;
  impl_GetEventCount : Engine -> eres Engine Z
}.

(** ** The facade *)

Section Facade.

Context {Engine EventImpl EventId : Type}.
Context `{!SimulatorImpl Engine EventImpl EventId}.

(** The compile-time switch [ENABLE_DES_METRICS]. *)
Variable ENABLE_DES_METRICS : bool.

(** Modelled from the spec: the reference-counted ownership of objects
    ([Ptr], [Ref], [Unref]; ptr.h is not part of the sources at hand).  An
    object is the engine and the number of its owners. *)
Record object : Type := mkObject {
  obj_engine : Engine;
  obj_refs : nat
}.

Record World : Type := mkWorld {
  pimpl : option ref;              (* static SimulatorImpl *impl (PeekImpl) *)
  heap : gmap positive object;     (* the live SimulatorImpl objects *)
  next_ref : ref;                  (* identity of the next object created *)
  g_simTypeImpl : string;          (* "SimulatorImplementationType" *)
  g_schedTypeImpl : string;        (* "SchedulerType" *)
  timePrinter : option printer;    (* hook set by LogSetTimePrinter *)
  nodePrinter : option printer;    (* hook set by LogSetNodePrinter *)
  trace : list action              (* what happened so far, oldest first *)
}.

(** The state of a process at start: no engine, no hook. *)
Definition initial : World :=
  {| pimpl := None; heap := ∅; next_ref := 1%positive;
     g_simTypeImpl := DefaultSimulatorImpl_name;
     g_schedTypeImpl := MapScheduler_name;
     timePrinter := None; nodePrinter := None; trace := [] |}.

(** A facade call returns, or aborts the process ([NS_FATAL_ERROR], or a
    fatal condition inside the engine), or dereferences a pointer that names
    no live object (undefined behaviour in C++).  Each case carries the world
    reached. *)
Inductive outcome (A : Type) : Type :=
| Done (a : A) (w : World)
| Fatal (msg : string) (w : World)
| Undefined (w : World).
Arguments Done {A} a w.
Arguments Fatal {A} msg w.
Arguments Undefined {A} w.

Definition M (A : Type) : Type := World -> outcome A.

Definition ret {A} (a : A) : M A := fun w => Done a w.

Definition bind {A B} (c : M A) (k : A -> M B) : M B := fun w =>
  match c w with
  | Done a w' => k a w'
  | Fatal msg w' => Fatal msg w'
  | Undefined w' => Undefined w'
  end.

Notation "'let*' x ':=' c 'in' k" := (bind c (fun x => k))
  (at level 10, x name, c at level 100, k at level 200).

(** The world in which an execution ended. *)
Definition final {A} (o : outcome A) : World :=
  match o with
  | Done _ w => w
  | Fatal _ w => w
  | Undefined w => w
  end.

(** *** Primitive steps *)

Definition emit (a : action) (w : World) : World :=
  {| pimpl := pimpl w; heap := heap w; next_ref := next_ref w;
     g_simTypeImpl := g_simTypeImpl w; g_schedTypeImpl := g_schedTypeImpl w;
     timePrinter := timePrinter w; nodePrinter := nodePrinter w;
     trace := trace w ++ [a] |}.

Definition set_heap (h : gmap positive object) (w : World) : World :=
  {| pimpl := pimpl w; heap := h; next_ref := next_ref w;
     g_simTypeImpl := g_simTypeImpl w; g_schedTypeImpl := g_schedTypeImpl w;
     timePrinter := timePrinter w; nodePrinter := nodePrinter w;
     trace := trace w |}.

(** Modelled from the spec: the macro [NS_FATAL_ERROR (msg)] (not part of
    the sources at hand) is a fatal condition: it aborts the process. *)
Definition NS_FATAL_ERROR {A} (msg : string) : M A := fun w => Fatal msg w.

(** [*PeekImpl ()]: the value of the static pointer. *)
Definition PeekImpl : M (option ref) := fun w => Done (pimpl w) w.

(** [*PeekImpl () = v] *)
Definition store (v : option ref) : M unit := fun w =>
  Done tt (emit (AStore v)
    {| pimpl := v; heap := heap w; next_ref := next_ref w;
       g_simTypeImpl := g_simTypeImpl w; g_schedTypeImpl := g_schedTypeImpl w;
       timePrinter := timePrinter w; nodePrinter := nodePrinter w;
       trace := trace w |}).

(** Modelled from the spec: [LogSetTimePrinter (h)] of the logging
    framework (log.h is not part of the sources at hand) installs the print
    hook [h], or removes the hook when [h] is null. *)
Definition LogSetTimePrinter (h : option printer) : M unit := fun w =>
  Done tt (emit (ATimePrinter h)
    {| pimpl := pimpl w; heap := heap w; next_ref := next_ref w;
       g_simTypeImpl := g_simTypeImpl w; g_schedTypeImpl := g_schedTypeImpl w;
       timePrinter := h; nodePrinter := nodePrinter w;
       trace := trace w |}).

(** Modelled from the spec: [LogSetNodePrinter (h)], as
    [LogSetTimePrinter]. *)
Definition LogSetNodePrinter (h : option printer) : M unit := fun w =>
  Done tt (emit (ANodePrinter h)
    {| pimpl := pimpl w; heap := heap w; next_ref := next_ref w;
       g_simTypeImpl := g_simTypeImpl w; g_schedTypeImpl := g_schedTypeImpl w;
       timePrinter := timePrinter w; nodePrinter := h;
       trace := trace w |}).

(** Modelled from the spec: [GetPointer (factory.Create<SimulatorImpl> ())]
    with the factory set to the registered type name [tid] (object-factory.h
    and ptr.h are not part of the sources at hand): a new object, whose only
    owner is the raw pointer returned (the temporary [Ptr] is gone at the end
    of the statement). *)
Definition create (tid : string) : M ref := fun w =>
  let p := next_ref w in
  Done p (emit (ACreate p)
    {| pimpl := pimpl w;
       heap := <[p := mkObject (Create tid) 1]> (heap w);
       next_ref := Pos.succ p;
       g_simTypeImpl := g_simTypeImpl w; g_schedTypeImpl := g_schedTypeImpl w;
       timePrinter := timePrinter w; nodePrinter := nodePrinter w;
       trace := trace w |}).

(** Modelled from the spec: one more owner of [p], by [GetPointer (ptr)] or
    by a [Ptr] built from a raw pointer. *)
Definition Ref (p : ref) : M unit := fun w =>
  match heap w !! p with
  | None => Undefined w
  | Some o =>
      Done tt (emit (ARef p)
        (set_heap (<[p := mkObject (obj_engine o) (S (obj_refs o))]> (heap w)) w))
  end.

(** Modelled from the spec: [p->Unref ()] releases the object: one owner
    less, and the object is deleted with its last owner. *)
Definition Unref (p : ref) : M unit := fun w =>
  match heap w !! p with
  | None => Undefined w
  | Some o =>
      Done tt (emit (AUnref p)
        (set_heap
           match obj_refs o with
           | S (S n) => <[p := mkObject (obj_engine o) (S n)]> (heap w)
           | _ => delete p (heap w)
           end w))
  end.

(** The virtual call [p->m (...)], where [f] is the member function. *)
Definition invoke {A} (p : ref) (m : method) (f : Engine -> eres Engine A)
  : M A := fun w =>
  match heap w !! p with
  | None => Undefined w
  | Some o =>
      match f (obj_engine o) with
      | inl msg => Fatal msg (emit (ACall p m) w)
      | inr (a, e') =>
          Done a (emit (ACall p m)
            (set_heap (<[p := mkObject e' (obj_refs o)]> (heap w)) w))
      end
  end.

(** Reading a [GlobalValue]. *)
Definition get_simTypeImpl : M string := fun w => Done (g_simTypeImpl w) w.
Definition get_schedTypeImpl : M string := fun w => Done (g_schedTypeImpl w) w.

(** [Time::ClearMarkedTimes ()] (nstime.h): only the call is recorded. *)
Definition ClearMarkedTimes : M unit := fun w => Done tt (emit AClearMarkedTimes w).

(** [DesMetrics::Get ()->Trace (now, delay)] (des-metrics.h): only the
    call is recorded. *)
Definition DesTrace (now delay : Time) : M unit := fun w =>
  Done tt (emit (ADesTrace now delay) w).

(** [DesMetrics::Get ()->TraceWithContext (context, now, delay)] *)
Definition DesTraceWithContext (context : Z) (now delay : Time) : M unit :=
  fun w => Done tt (emit (ADesTraceWithContext context now delay) w).

(** *** simulator.cc *)

Definition GetImpl : M ref :=
  let* pimpl := PeekImpl in
  match pimpl with
  | Some p => ret p
  | None =>
      let* s := get_simTypeImpl in
      let* p := create s in
      let* _ := store (Some p) in
      let* s := get_schedTypeImpl in
      let* _ := invoke p MSetScheduler (impl_SetScheduler s) in
      let* _ := LogSetTimePrinter (Some DefaultTimePrinter) in
      let* _ := LogSetNodePrinter (Some DefaultNodePrinter) in
      ret p
  end.

Definition Destroy : M unit :=
  let* pimpl := PeekImpl in
  match pimpl with
  | None => ret tt
  | Some p =>
      let* _ := LogSetTimePrinter None in
      let* _ := LogSetNodePrinter None in
      let* _ := invoke p MDestroy impl_Destroy in
      let* _ := Unref p in
      store None
  end.

Definition SetScheduler (schedulerFactory : ObjectFactory) : M unit :=
  let* p := GetImpl in
  invoke p MSetScheduler (impl_SetScheduler schedulerFactory).

Definition IsFinished : M bool :=
  let* p := GetImpl in
  invoke p MIsFinished impl_IsFinished.

Definition Run : M unit :=
  let* _ := ClearMarkedTimes in
  let* p := GetImpl in
  invoke p MRun impl_Run.

Definition Stop : M unit :=
  let* p := GetImpl in
  invoke p MStop impl_Stop.

(** [Simulator::Stop (Time const &delay)] *)
Definition StopAt (delay : Time) : M unit :=
  let* p := GetImpl in
  invoke p MStopAt (impl_StopAt delay).

Definition Now : M Time :=
  let* p := GetImpl in
  invoke p MNow impl_Now.

Definition GetDelayLeft (id : EventId) : M Time :=
  let* p := GetImpl in
  invoke p MGetDelayLeft (impl_GetDelayLeft id).

Definition DoSchedule (time : Time) (impl : EventImpl) : M EventId :=
  let* _ := (if ENABLE_DES_METRICS
             then let* now := Now in DesTrace now time
             else ret tt) in
  let* p := GetImpl in
  invoke p MSchedule (impl_Schedule time impl).

Definition DoScheduleNow (impl : EventImpl) : M EventId :=
  let* _ := (if ENABLE_DES_METRICS
             then let* now := Now in DesTrace now 0
             else ret tt) in
  let* p := GetImpl in
  invoke p MScheduleNow (impl_ScheduleNow impl).

Definition DoScheduleDestroy (impl : EventImpl) : M EventId :=
  let* p := GetImpl in
  invoke p MScheduleDestroy (impl_ScheduleDestroy impl).

Definition Schedule (delay : Time) (event : EventImpl) : M EventId :=
  DoSchedule delay event.

Definition ScheduleNow (ev : EventImpl) : M EventId :=
  DoScheduleNow ev.

Definition ScheduleWithContext (context : Z) (delay : Time) (impl : EventImpl)
  : M unit :=
  let* _ := (if ENABLE_DES_METRICS
             then let* now := Now in DesTraceWithContext context now delay
             else ret tt) in
  let* p := GetImpl in
  invoke p MScheduleWithContext (impl_ScheduleWithContext context delay impl).

Definition ScheduleDestroy (ev : EventImpl) : M EventId :=
  DoScheduleDestroy ev.

Definition Remove (id : EventId) : M unit :=
  let* pimpl := PeekImpl in
  match pimpl with
  | None => ret tt
  | Some _ =>
      let* p := GetImpl in
      invoke p MRemove (impl_Remove id)
  end.

Definition Cancel (id : EventId) : M unit :=
  let* pimpl := PeekImpl in
  match pimpl with
  | None => ret tt
  | Some _ =>
      let* p := GetImpl in
      invoke p MCancel (impl_Cancel id)
  end.

Definition IsExpired (id : EventId) : M bool :=
  let* pimpl := PeekImpl in
  match pimpl with
  | None => ret true
  | Some _ =>
      let* p := GetImpl in
      invoke p MIsExpired (impl_IsExpired id)
  end.

Definition GetMaximumSimulationTime : M Time :=
  let* p := GetImpl in
  invoke p MGetMaximumSimulationTime impl_GetMaximumSimulationTime.

Definition GetContext : M Z :=
  let* p := GetImpl in
  invoke p MGetContext impl_GetContext.

Definition GetEventCount : M Z :=
  let* p := GetImpl in
  invoke p MGetEventCount impl_GetEventCount.

Definition GetSystemId : M Z :=
  let* pimpl := PeekImpl in
  match pimpl with
  | Some _ =>
      let* p := GetImpl in
      invoke p MGetSystemId impl_GetSystemId
  | None => ret 0
  end.

Definition SetImplementation (impl : ref) : M unit :=
  let* pimpl := PeekImpl in
  let* _ := match pimpl with
            | Some _ => NS_FATAL_ERROR SetImplementation_late
            | None => ret tt
            end in
  let* _ := Ref impl in
  let* _ := store (Some impl) in
  let* s := get_schedTypeImpl in
  let* _ := invoke impl MSetScheduler (impl_SetScheduler s) in
  let* _ := LogSetTimePrinter (Some DefaultTimePrinter) in
  let* _ := LogSetNodePrinter (Some DefaultNodePrinter) in
  ret tt.

Definition GetImplementation : M ref :=
  let* p := GetImpl in
  let* _ := Ref p in
  ret p.

(** *** The facade as a set of operations *)

Inductive op : Type :=
| OpDestroy
| OpSetScheduler (schedulerFactory : ObjectFactory)
| OpIsFinished
| OpRun
| OpStop
| OpStopAt (delay : Time)
| OpNow
| OpGetDelayLeft (id : EventId)
| OpSchedule (delay : Time) (event : EventImpl)
| OpScheduleNow (ev : EventImpl)
| OpScheduleWithContext (context : Z) (delay : Time) (impl : EventImpl)
| OpScheduleDestroy (ev : EventImpl)
| OpRemove (id : EventId)
| OpCancel (id : EventId)
| OpIsExpired (id : EventId)
| OpGetMaximumSimulationTime
| OpGetContext
| OpGetEventCount
| OpGetSystemId
| OpSetImplementation (impl : ref)
| OpGetImplementation.

Inductive value : Type :=
| VVoid
| VBool (b : bool)
| VTime (t : Time)
| VInt (n : Z)
| VEventId (id : EventId)
| VPtr (p : ref).

Definition returning {A} (inj : A -> value) (c : M A) : M value :=
  let* a := c in ret (inj a).

Definition exec (o : op) : M value :=
  match o with
  | OpDestroy => returning (fun _ => VVoid) Destroy
  | OpSetScheduler f => returning (fun _ => VVoid) (SetScheduler f)
  | OpIsFinished => returning VBool IsFinished
  | OpRun => returning (fun _ => VVoid) Run
  | OpStop => returning (fun _ => VVoid) Stop
  | OpStopAt d => returning (fun _ => VVoid) (StopAt d)
  | OpNow => returning VTime Now
  | OpGetDelayLeft id => returning VTime (GetDelayLeft id)
  | OpSchedule d ev => returning VEventId (Schedule d ev)
  | OpScheduleNow ev => returning VEventId (ScheduleNow ev)
  | OpScheduleWithContext c d ev =>
      returning (fun _ => VVoid) (ScheduleWithContext c d ev)
  | OpScheduleDestroy ev => returning VEventId (ScheduleDestroy ev)
  | OpRemove id => returning (fun _ => VVoid) (Remove id)
  | OpCancel id => returning (fun _ => VVoid) (Cancel id)
  | OpIsExpired id => returning VBool (IsExpired id)
  | OpGetMaximumSimulationTime => returning VTime GetMaximumSimulationTime
  | OpGetContext => returning VInt GetContext
  | OpGetEventCount => returning VInt GetEventCount
  | OpGetSystemId => returning VInt GetSystemId
  | OpSetImplementation q => returning (fun _ => VVoid) (SetImplementation q)
  | OpGetImplementation => returning VPtr GetImplementation
  end.

(** The operations that reach [GetImpl] when the pointer is null. *)
Definition needs_engine (o : op) : bool :=
  match o with
  | OpDestroy | OpRemove _ | OpCancel _ | OpIsExpired _ | OpGetSystemId
  | OpSetImplementation _ => false
  | _ => true
  end.

Definition is_Destroy (o : op) : bool :=
  match o with
  | OpDestroy => true
  | _ => false
  end.

(** A program: facade calls one after the other, up to the first that does
    not return. *)
Fixpoint run (os : list op) (w : World) : World :=
  match os with
  | [] => w
  | o :: os' =>
      match exec o w with
      | Done _ w' => run os' w'
      | Fatal _ w' => w'
      | Undefined w' => w'
      end
  end.

(** *** Reading a trace *)

Definition is_done {A} (o : outcome A) : bool :=
  match o with
  | Done _ _ => true
  | _ => false
  end.

(** The steps of the lazy construction in [GetImpl], for the new object
    [p]. *)
Definition construction_steps (p : ref) : list action :=
  [ACreate p; AStore (Some p); ACall p MSetScheduler;
   ATimePrinter (Some DefaultTimePrinter);
   ANodePrinter (Some DefaultNodePrinter)].

(** The steps of [Simulator::Destroy] on the engine [p]. *)
Definition destruction_steps (p : ref) : list action :=
  [ATimePrinter None; ANodePrinter None; ACall p MDestroy; AUnref p;
   AStore None].

(** No engine is built, and every virtual call is made on [p]. *)
Definition on_engine (p : ref) (a : action) : Prop :=
  match a with
  | ACreate _ => False
  | ACall q _ => q = p
  | AStore v => v = Some p
  | _ => True
  end.

(** What a client can tell of a world: everything but which of the two
    scheduling member functions a virtual call went to. *)
Definition same_call (a : action) : action :=
  match a with
  | ACall p MScheduleNow => ACall p MSchedule
  | _ => a
  end.

Definition observe (w : World) : World :=
  {| pimpl := pimpl w; heap := heap w; next_ref := next_ref w;
     g_simTypeImpl := g_simTypeImpl w; g_schedTypeImpl := g_schedTypeImpl w;
     timePrinter := timePrinter w; nodePrinter := nodePrinter w;
     trace := map same_call (trace w) |}.

Definition observed {A} (o : outcome A) : outcome A :=
  match o with
  | Done a w => Done a (observe w)
  | Fatal msg w => Fatal msg (observe w)
  | Undefined w => Undefined (observe w)
  end.

(** References are handed out in increasing order and never reused. *)
Definition wf (w : World) : Prop :=
  forall p, is_Some (heap w !! p) -> (p < next_ref w)%positive.

(** The world after the first two steps of the lazy path: the new object is
    in the store and its address in the static pointer. *)
Definition registered (w : World) : World :=
  {| pimpl := Some (next_ref w);
     heap := <[next_ref w := mkObject (Create (g_simTypeImpl w)) 1%nat]> (heap w);
     next_ref := Pos.succ (next_ref w);
     g_simTypeImpl := g_simTypeImpl w; g_schedTypeImpl := g_schedTypeImpl w;
     timePrinter := timePrinter w; nodePrinter := nodePrinter w;
     trace := trace w ++ [ACreate (next_ref w); AStore (Some (next_ref w))] |}.

(** The world after the first two steps of [Destroy]: both hooks are gone. *)
Definition unhooked (w : World) : World :=
  {| pimpl := pimpl w; heap := heap w; next_ref := next_ref w;
     g_simTypeImpl := g_simTypeImpl w; g_schedTypeImpl := g_schedTypeImpl w;
     timePrinter := None; nodePrinter := None;
     trace := trace w ++ [ATimePrinter None; ANodePrinter None] |}.

(** The store once the facade has given up its reference to [p], whose
    engine is [e']. *)
Definition released (p : ref) (o : object) (e' : Engine)
  (h : gmap positive object) : gmap positive object :=
  match obj_refs o with
  | S (S n) => <[p := mkObject e' (S n)]> h
  | _ => delete p h
  end.

(** [keeps p c]: started with [p] installed, [c] ends with [p] installed,
    builds no engine and calls no other engine. *)
Definition keeps {A} (p : ref) (c : M A) : Prop :=
  forall w, pimpl w = Some p ->
    pimpl (final (c w)) = Some p /\
    exists t, trace (final (c w)) = trace w ++ t /\ Forall (on_engine p) t.

(** The world in which [SetImplementation impl] returns, when [impl] named
    the object [o] and its engine took the default scheduler and became
    [e']. *)
Definition installed (impl : ref) (o : object) (e' : Engine) (w : World)
  : World :=
  {| pimpl := Some impl;
     heap := <[impl := mkObject e' (S (obj_refs o))]> (heap w);
     next_ref := next_ref w;
     g_simTypeImpl := g_simTypeImpl w; g_schedTypeImpl := g_schedTypeImpl w;
     timePrinter := Some DefaultTimePrinter;
     nodePrinter := Some DefaultNodePrinter;
     trace := trace w ++
       [ARef impl; AStore (Some impl); ACall impl MSetScheduler;
        ATimePrinter (Some DefaultTimePrinter);
        ANodePrinter (Some DefaultNodePrinter)] |}.

(** [builds c]: started with a null pointer, [c] builds an engine, the next
    object of the store, and ends with it installed. *)
Definition builds {A} (c : M A) : Prop :=
  forall w, pimpl w = None ->
    pimpl (final (c w)) = Some (next_ref w) /\
    exists t, trace (final (c w)) = trace w ++ t /\ ACreate (next_ref w) ∈ t.

(** [preserves c]: [c] keeps the store well formed. *)
Definition preserves {A} (c : M A) : Prop :=
  forall w, wf w -> wf (final (c w)).

End Facade.

Arguments World : clear implicits.
Arguments object : clear implicits.
Arguments outcome : clear implicits.
Arguments M : clear implicits.
Arguments op : clear implicits.
Arguments value : clear implicits.
Arguments Done {Engine A} a w.
Arguments Fatal {Engine A} msg w.
Arguments Undefined {Engine A} w.
Arguments mkObject {Engine} obj_engine obj_refs.
Arguments mkWorld {Engine} pimpl heap next_ref g_simTypeImpl g_schedTypeImpl
  timePrinter nodePrinter trace.

(** ** States of the facade *)

Section States.

Context {Engine EventImpl EventId : Type}.
Context `{!SimulatorImpl Engine EventImpl EventId}.
Variable ENABLE_DES_METRICS : bool.

(** The print hooks are installed exactly while an engine is. *)
Definition hooked (w : World Engine) : Prop :=
  match pimpl w with
  | None => timePrinter w = None /\ nodePrinter w = None
  | Some _ =>
      timePrinter w = Some DefaultTimePrinter /\
      nodePrinter w = Some DefaultNodePrinter
  end.

(** The static pointer, when not null, names a live object. *)
Definition live (w : World Engine) : Prop :=
  forall p, pimpl w = Some p -> is_Some (heap w !! p).

(** The worlds a process can be in: it starts in [initial], calls the facade,
    and may make engine objects of its own to hand to
    [Simulator::SetImplementation]. *)
Inductive reachable : World Engine -> Prop :=
| reach_initial : reachable initial
| reach_exec (o : op EventImpl EventId) (w : World Engine)
    (v : value EventId) (w' : World Engine) :
    reachable w -> exec ENABLE_DES_METRICS o w = Done v w' -> reachable w'
| reach_create (tid : string) (w : World Engine) :
    reachable w -> reachable (final (create tid w)).

(** A world without its trace: everything a later call can depend on. *)
Definition erase (w : World Engine) : World Engine :=
  {| pimpl := pimpl w; heap := heap w; next_ref := next_ref w;
     g_simTypeImpl := g_simTypeImpl w; g_schedTypeImpl := g_schedTypeImpl w;
     timePrinter := timePrinter w; nodePrinter := nodePrinter w;
     trace := [] |}.

Definition erased {A} (o : outcome Engine A) : outcome Engine A :=
  match o with
  | Done a w => Done a (erase w)
  | Fatal msg w => Fatal msg (erase w)
  | Undefined w => Undefined (erase w)
  end.

(** [steady p c]: started with the live engine [p] installed, [c] ends with
    [p] installed and live, leaves the print hooks alone and dereferences no
    dead pointer. *)
Definition steady {A} (p : ref) (c : M Engine A) : Prop :=
  forall w, pimpl w = Some p -> is_Some (heap w !! p) ->
    pimpl (final (c w)) = Some p /\
    is_Some (heap (final (c w)) !! p) /\
    timePrinter (final (c w)) = timePrinter w /\
    nodePrinter (final (c w)) = nodePrinter w /\
    forall w', c w <> Undefined w'.

(** [starts c]: started with a null pointer, [c] ends with the next object of
    the store installed and live, dereferences no dead pointer, and has both
    hooks installed when it returns. *)
Definition starts {A} (c : M Engine A) : Prop :=
  forall w, pimpl w = None ->
    pimpl (final (c w)) = Some (next_ref w) /\
    is_Some (heap (final (c w)) !! next_ref w) /\
    (forall w', c w <> Undefined w') /\
    (is_done (c w) = true -> hooked (final (c w))).

(** *** What each operation forwards *)

(** A member function of the engine, its result seen as a [value]. *)
Definition as_value {A} (inj : A -> value EventId)
  (f : Engine -> eres Engine A) : Engine -> eres Engine (value EventId) :=
  fun e =>
    match f e with
    | inl msg => inl msg
    | inr (a, e') => inr (inj a, e')
    end.

(** The virtual member function an operation of the facade ends with, with
    the arguments it is given.  [Destroy], [SetImplementation] and
    [GetImplementation] are not a forward. *)
Definition virtual_call (o : op EventImpl EventId)
  : option (method * (Engine -> eres Engine (value EventId))) :=
  match o with
  | OpDestroy => None
  | OpSetScheduler f =>
      Some (MSetScheduler, as_value (fun _ => VVoid) (impl_SetScheduler f))
  | OpIsFinished => Some (MIsFinished, as_value VBool impl_IsFinished)
  | OpRun => Some (MRun, as_value (fun _ => VVoid) impl_Run)
  | OpStop => Some (MStop, as_value (fun _ => VVoid) impl_Stop)
  | OpStopAt d => Some (MStopAt, as_value (fun _ => VVoid) (impl_StopAt d))
  | OpNow => Some (MNow, as_value VTime impl_Now)
  | OpGetDelayLeft id =>
      Some (MGetDelayLeft, as_value VTime (impl_GetDelayLeft id))
  | OpSchedule d ev => Some (MSchedule, as_value VEventId (impl_Schedule d ev))
  | OpScheduleNow ev =>
      Some (MScheduleNow, as_value VEventId (impl_ScheduleNow ev))
  | OpScheduleWithContext c d ev =>
      Some (MScheduleWithContext,
            as_value (fun _ => VVoid) (impl_ScheduleWithContext c d ev))
  | OpScheduleDestroy ev =>
      Some (MScheduleDestroy, as_value VEventId (impl_ScheduleDestroy ev))
  | OpRemove id => Some (MRemove, as_value (fun _ => VVoid) (impl_Remove id))
  | OpCancel id => Some (MCancel, as_value (fun _ => VVoid) (impl_Cancel id))
  | OpIsExpired id => Some (MIsExpired, as_value VBool (impl_IsExpired id))
  | OpGetMaximumSimulationTime =>
      Some (MGetMaximumSimulationTime,
            as_value VTime impl_GetMaximumSimulationTime)
  | OpGetContext => Some (MGetContext, as_value VInt impl_GetContext)
  | OpGetEventCount => Some (MGetEventCount, as_value VInt impl_GetEventCount)
  | OpGetSystemId => Some (MGetSystemId, as_value VInt impl_GetSystemId)
  | OpSetImplementation _ => None
  | OpGetImplementation => None
  end.

(** What an operation does before it forwards, with the engine [p]
    installed: [Run] clears the marked times, and the three scheduling
    operations read the clock of [p] and record the metrics when these are
    compiled in. *)
Definition announce (p : ref) (o : op EventImpl EventId) : M Engine unit :=
  match o with
  | OpRun => ClearMarkedTimes
  | OpSchedule d _ =>
      if ENABLE_DES_METRICS
      then bind (invoke p MNow impl_Now) (fun now => DesTrace now d)
      else ret tt
  | OpScheduleNow _ =>
      if ENABLE_DES_METRICS
      then bind (invoke p MNow impl_Now) (fun now => DesTrace now 0)
      else ret tt
  | OpScheduleWithContext c d _ =>
      if ENABLE_DES_METRICS
      then bind (invoke p MNow impl_Now)
             (fun now => DesTraceWithContext c now d)
      else ret tt
  | _ => ret tt
  end.

(** The operations that do nothing before they forward. *)
Definition silent (o : op EventImpl EventId) : bool :=
  match o with
  | OpRun => false
  | OpSchedule _ _ | OpScheduleNow _ | OpScheduleWithContext _ _ _ =>
      negb ENABLE_DES_METRICS
  | _ => true
  end.

End States.

(** ** A reference engine *)

Module Reference.

(** The payload of an event: a user callback, known by a number, or the
    internal event of [Stop (delay)]. *)
Inductive EventImpl : Type :=
| Callback (n : nat)
| StopEvent.

Record Event : Type := mkEvent {
  ev_time : Time;          (* absolute time *)
  ev_context : Z;
  ev_uid : Z;              (* sequence id *)
  ev_cancelled : bool;
  ev_impl : EventImpl
}.

Record EventId : Type := mkEventId {
  id_impl : EventImpl;
  id_ts : Time;
  id_context : Z;
  id_uid : Z
}.

(** Modelled from the spec: the Engine ([SimulatorImpl]) and the contract of
    its Scheduler. The classes deriving from [SimulatorImpl] and [Scheduler]
    are not in simulator.cc; this is the engine of sections 3 and 4 of the
    specification: a clock, a context, a sequence counter, a stop flag, the
    pending events ordered by (time, sequence id) and the destroy-phase list.
    Callbacks are opaque: running one records it in [e_invoked]. *)
Record Engine : Type := mkEngine {
  e_type : string;               (* the implementation type built *)
  e_scheduler : option ObjectFactory;
  e_events : list Event;         (* pending, ordered by (time, uid) *)
  e_destroy : list EventImpl;    (* destroy-phase events, oldest first *)
  e_now : Time;
  e_context : Z;
  e_uid : Z;
  e_count : Z;                   (* events executed *)
  e_stop : bool;
  e_invoked : list EventImpl     (* callbacks invoked, oldest first *)
}.

Definition new_engine (tid : string) : Engine :=
  {| e_type := tid; e_scheduler := None; e_events := []; e_destroy := [];
     e_now := 0; e_context := 0; e_uid := 0; e_count := 0; e_stop := false;
     e_invoked := [] |}.

Definition set_events (l : list Event) (e : Engine) : Engine :=
  {| e_type := e_type e; e_scheduler := e_scheduler e; e_events := l;
     e_destroy := e_destroy e; e_now := e_now e; e_context := e_context e;
     e_uid := e_uid e; e_count := e_count e; e_stop := e_stop e;
     e_invoked := e_invoked e |}.

Definition set_stop (b : bool) (e : Engine) : Engine :=
  {| e_type := e_type e; e_scheduler := e_scheduler e; e_events := e_events e;
     e_destroy := e_destroy e; e_now := e_now e; e_context := e_context e;
     e_uid := e_uid e; e_count := e_count e; e_stop := b;
     e_invoked := e_invoked e |}.

(** Scheduler order: time first, sequence id to break ties. *)
Definition before (a b : Event) : bool :=
  (ev_time a <? ev_time b) || ((ev_time a =? ev_time b) && (ev_uid a <? ev_uid b)).

(** Scheduler [Insert]. *)
Fixpoint insert_event (x : Event) (l : list Event) : list Event :=
  match l with
  | [] => [x]
  | y :: l' => if before x y then x :: y :: l' else y :: insert_event x l'
  end.

(** Insertion of a new event at the absolute time [t] for context [c]: it
    takes the next sequence id. *)
Definition insert_at (t : Time) (c : Z) (impl : EventImpl) (e : Engine)
  : EventId * Engine :=
  (mkEventId impl t c (e_uid e),
   {| e_type := e_type e; e_scheduler := e_scheduler e;
      e_events := insert_event (mkEvent t c (e_uid e) false impl) (e_events e);
      e_destroy := e_destroy e; e_now := e_now e; e_context := e_context e;
      e_uid := e_uid e + 1; e_count := e_count e; e_stop := e_stop e;
      e_invoked := e_invoked e |}).

Definition Schedule (delay : Time) (impl : EventImpl) (e : Engine)
  : eres Engine EventId :=
  if e_now e + delay <? e_now e
  then inl "scheduling at a time before now"%string
  else inr (insert_at (e_now e + delay) (e_context e) impl e).

Definition ScheduleNow (impl : EventImpl) (e : Engine) : eres Engine EventId :=
  inr (insert_at (e_now e) (e_context e) impl e).

Definition ScheduleWithContext (context : Z) (delay : Time) (impl : EventImpl)
  (e : Engine) : eres Engine unit :=
  if e_now e + delay <? e_now e
  then inl "scheduling at a time before now"%string
  else inr (tt, snd (insert_at (e_now e + delay) context impl e)).

Definition ScheduleDestroy (impl : EventImpl) (e : Engine)
  : eres Engine EventId :=
  inr (mkEventId impl (e_now e) (e_context e) (e_uid e),
       {| e_type := e_type e; e_scheduler := e_scheduler e;
          e_events := e_events e; e_destroy := e_destroy e ++ [impl];
          e_now := e_now e; e_context := e_context e; e_uid := e_uid e + 1;
          e_count := e_count e; e_stop := e_stop e;
          e_invoked := e_invoked e |}).

Definition names (id : EventId) (x : Event) : bool :=
  (ev_uid x =? id_uid id) && (ev_time x =? id_ts id).

Definition Cancel (id : EventId) (e : Engine) : eres Engine unit :=
  inr (tt, set_events
             (map (fun x => if names id x
                            then mkEvent (ev_time x) (ev_context x) (ev_uid x)
                                   true (ev_impl x)
                            else x) (e_events e)) e).

Definition Remove (id : EventId) (e : Engine) : eres Engine unit :=
  inr (tt, set_events (filter (fun x => negb (names id x)) (e_events e)) e).

Definition IsExpired (id : EventId) (e : Engine) : eres Engine bool :=
  inr (negb (existsb (fun x => names id x && negb (ev_cancelled x))
               (e_events e)), e).

Definition GetDelayLeft (id : EventId) (e : Engine) : eres Engine Time :=
  match IsExpired id e with
  | inr (false, _) => inr (id_ts id - e_now e, e)
  | _ => inr (0, e)
  end.

Definition IsFinished (e : Engine) : eres Engine bool :=
  inr (match e_events e with [] => true | _ => e_stop e end, e).

Definition Stop (e : Engine) : eres Engine unit := inr (tt, set_stop true e).

Definition StopAt (delay : Time) (e : Engine) : eres Engine unit :=
  match Schedule delay StopEvent e with
  | inl msg => inl msg
  | inr (_, e') => inr (tt, e')
  end.

(** One event popped by the run loop, at clock [now]. *)
Definition execute (x : Event) (e : Engine) : Engine :=
  {| e_type := e_type e; e_scheduler := e_scheduler e; e_events := e_events e;
     e_destroy := e_destroy e; e_now := ev_time x; e_context := ev_context x;
     e_uid := e_uid e;
     e_count := if ev_cancelled x then e_count e else e_count e + 1;
     e_stop := if ev_cancelled x then e_stop e
               else match ev_impl x with
                    | StopEvent => true
                    | Callback _ => e_stop e
                    end;
     e_invoked := if ev_cancelled x then e_invoked e
                  else e_invoked e ++ [ev_impl x] |}.

(** The run loop over the pending events [l], earliest first. *)
Fixpoint run_loop (l : list Event) (e : Engine) : eres Engine unit :=
  match l with
  | [] => inr (tt, set_events [] e)
  | x :: l' =>
      if e_stop e then inr (tt, set_events l e)
      else if ev_time x <? e_now e
      then inl "virtual time moving backward"%string
      else run_loop l' (execute x e)
  end.

Definition Run (e : Engine) : eres Engine unit := run_loop (e_events e) e.

Definition Destroy (e : Engine) : eres Engine unit :=
  inr (tt,
       {| e_type := e_type e; e_scheduler := None; e_events := [];
          e_destroy := []; e_now := e_now e; e_context := e_context e;
          e_uid := e_uid e; e_count := e_count e; e_stop := e_stop e;
          e_invoked := e_invoked e ++ e_destroy e |}).

Definition SetScheduler (f : ObjectFactory) (e : Engine) : eres Engine unit :=
  inr (tt,
       {| e_type := e_type e; e_scheduler := Some f; e_events := e_events e;
          e_destroy := e_destroy e; e_now := e_now e; e_context := e_context e;
          e_uid := e_uid e; e_count := e_count e; e_stop := e_stop e;
          e_invoked := e_invoked e |}).

(** The largest representable [Time]. *)
Definition MaximumSimulationTime : Time := 9223372036854775807.

#[global] Instance engine : SimulatorImpl Engine EventImpl EventId := {
  Create := new_engine;
  impl_Destroy := Destroy;
  impl_IsFinished := IsFinished;
  impl_Stop := Stop;
  impl_StopAt := StopAt;
  impl_Schedule := Schedule;
  impl_ScheduleWithContext := ScheduleWithContext;
  impl_ScheduleNow := ScheduleNow;
  impl_ScheduleDestroy := ScheduleDestroy;
  impl_Remove := Remove;
  impl_Cancel := Cancel;
  impl_IsExpired := IsExpired;
  impl_Run := Run;
  impl_Now := fun e => inr (e_now e, e);
  impl_GetDelayLeft := GetDelayLeft;
  impl_GetMaximumSimulationTime := fun e => inr (MaximumSimulationTime, e);
  impl_SetScheduler := SetScheduler;
  impl_GetSystemId := fun e => inr (0, e);
  impl_GetContext := fun e => inr (e_context e, e);
  impl_GetEventCount := fun e => inr (e_count e, e)
}.

End Reference.

(** ** Some processes on the reference engine *)

Module Scenario.

(** The world of a process that runs the reference engine. *)
Definition start : World Reference.Engine := initial.

(** The process has made an engine object of its own (object 1). *)
Definition with_object : World Reference.Engine :=
  final (create DefaultSimulatorImpl_name start).

(** ... and has handed it to [Simulator::SetImplementation]. *)
Definition injected : World Reference.Engine :=
  final (SetImplementation 1%positive with_object).

(** ... and has then called [Simulator::Destroy]. *)
Definition torn_down : World Reference.Engine := final (Destroy injected).

(** The process has let the facade build its engine, by asking the time. *)
Definition lazily_built : World Reference.Engine :=
  run false [OpNow] start.

(** ... and has then called [Simulator::Destroy]. *)
Definition restarted : World Reference.Engine := final (Destroy lazily_built).

(** A simulation of two events. *)
Definition simulation : list (op Reference.EventImpl Reference.EventId) :=
  [OpSchedule 5 (Reference.Callback 1); OpScheduleNow (Reference.Callback 2);
   OpRun; OpGetEventCount].

(** A handle on the first event of an engine, due at time 5. *)
Definition first_id : Reference.EventId :=
  Reference.mkEventId (Reference.Callback 0) 5 0 0.

(** The engine the factory makes, before and after it is given the default
    scheduler. *)
Definition new_engine : Reference.Engine :=
  Reference.new_engine DefaultSimulatorImpl_name.

Definition ready_engine : Reference.Engine :=
  Reference.mkEngine DefaultSimulatorImpl_name (Some MapScheduler_name)
    [] [] 0 0 0 0 false [].

(** The process has gone through [GetImpl] once, and has then called
    [Simulator::Destroy]. *)
Definition built : World Reference.Engine := final (GetImpl start).
Definition built_gone : World Reference.Engine := final (Destroy built).

(** The process has asked for the engine with [GetImplementation], and has
    then called [Simulator::Destroy]. *)
Definition obtained : World Reference.Engine :=
  final (GetImplementation start).
Definition obtained_gone : World Reference.Engine := final (Destroy obtained).

End Scenario.

(** ** Properties of the facade, for every engine *)

Section Properties.

Context {Engine EventImpl EventId : Type}.
Context `{!SimulatorImpl Engine EventImpl EventId}.
Variable ENABLE_DES_METRICS : bool.

Implicit Types (w : World Engine) (p q : ref) (a : action).

Local Abbreviation keeps := (@keeps Engine _).
Local Abbreviation builds := (@builds Engine _).
Local Abbreviation preserves := (@preserves Engine _).

(** *** The primitive steps *)

Lemma GetImpl_Some w p : pimpl w = Some p -> GetImpl w = Done p w.
Proof. intros Hp. unfold GetImpl, bind, PeekImpl. now rewrite Hp. Qed.

Lemma invoke_cases {A} p m (f : Engine -> eres Engine A) w :
  (heap w !! p = None /\ invoke p m f w = Undefined w) \/
  (exists o msg, heap w !! p = Some o /\ f (obj_engine o) = inl msg /\
     invoke p m f w = Fatal msg (emit (ACall p m) w)) \/
  (exists o r e', heap w !! p = Some o /\ f (obj_engine o) = inr (r, e') /\
     invoke p m f w =
       Done r (emit (ACall p m)
                 (set_heap (<[p := mkObject e' (obj_refs o)]> (heap w)) w))).
Proof.
  unfold invoke. destruct (heap w !! p) as [o|] eqn:Hh; [|now left].
  right. destruct (f (obj_engine o)) as [msg|[r e']] eqn:Hf.
  - left. now exists o, msg.
  - right. now exists o, r, e'.
Qed.

(** A virtual call leaves the pointer alone and adds at most itself to the
    trace. *)
Lemma invoke_frame {A} p m (f : Engine -> eres Engine A) w :
  pimpl (final (invoke p m f w)) = pimpl w /\
  next_ref (final (invoke p m f w)) = next_ref w /\
  (trace (final (invoke p m f w)) = trace w \/
   trace (final (invoke p m f w)) = trace w ++ [ACall p m]).
Proof.
  destruct (invoke_cases p m f w) as [[_ ->]|[(o & msg & _ & _ & ->)|(o & r & e' & _ & _ & ->)]];
    simpl; auto.
Qed.

(** *** Computations that stay on the engine installed *)

Lemma keeps_ret {A} p (x : A) : keeps p (ret x).
Proof.
  intros w Hw. split; [exact Hw|]. exists []. split; [|constructor].
  simpl. now rewrite app_nil_r.
Qed.

Lemma keeps_bind {A B} p (c : M Engine A) (k : A -> M Engine B) :
  keeps p c -> (forall x, keeps p (k x)) -> keeps p (bind c k).
Proof.
  intros Hc Hk w Hw. unfold bind.
  destruct (Hc w Hw) as [H1 (t & H2 & H3)].
  destruct (c w) as [x w'|msg w'|w']; simpl in *; try (split; [assumption|eauto]).
  destruct (Hk x w' H1) as [H4 (t' & H5 & H6)].
  split; [assumption|]. exists (t ++ t'). split.
  - now rewrite H5, H2, app_assoc.
  - now apply Forall_app.
Qed.

Lemma keeps_emit p a :
  on_engine p a -> keeps p (fun w => Done tt (emit a w)).
Proof.
  intros Ha w Hw. split; [exact Hw|]. exists [a]. split; [reflexivity|].
  now constructor.
Qed.

Lemma keeps_invoke {A} p m (f : Engine -> eres Engine A) :
  keeps p (invoke p m f).
Proof.
  intros w Hw. destruct (invoke_frame p m f w) as (H1 & _ & [H2|H2]).
  - split; [congruence|]. exists []. rewrite H2, app_nil_r. now split.
  - split; [congruence|]. exists [ACall p m]. split; [assumption|].
    now repeat constructor.
Qed.

Lemma keeps_Ref p q : keeps p (Ref q).
Proof.
  intros w Hw. unfold Ref. destruct (heap w !! q) as [o|]; simpl.
  - split; [exact Hw|]. exists [ARef q]. split; [reflexivity|].
    now repeat constructor.
  - split; [exact Hw|]. exists []. rewrite app_nil_r. now split.
Qed.

Lemma keeps_GetImpl {A} p (k : ref -> M Engine A) :
  keeps p (k p) -> keeps p (bind GetImpl k).
Proof.
  intros Hk w Hw. unfold bind. rewrite (GetImpl_Some w p Hw). now apply Hk.
Qed.

Lemma keeps_PeekImpl {A} p (k : option ref -> M Engine A) :
  keeps p (k (Some p)) -> keeps p (bind PeekImpl k).
Proof.
  intros Hk w Hw. unfold bind, PeekImpl. rewrite Hw. now apply Hk.
Qed.

Lemma keeps_forward {A} p m (f : Engine -> eres Engine A) :
  keeps p (bind GetImpl (fun q => invoke q m f)).
Proof. apply keeps_GetImpl, keeps_invoke. Qed.

Lemma keeps_Now p : keeps p Now.
Proof. apply keeps_forward. Qed.

Lemma keeps_returning {A} p (inj : A -> value EventId) (c : M Engine A) :
  keeps p c -> keeps p (returning inj c).
Proof. intros Hc. apply keeps_bind; [exact Hc|]. intros x. apply keeps_ret. Qed.

Lemma keeps_SetImplementation p q : keeps p (SetImplementation q).
Proof.
  intros w Hw. unfold SetImplementation, bind, PeekImpl, NS_FATAL_ERROR.
  rewrite Hw. simpl. split; [exact Hw|]. exists []. rewrite app_nil_r.
  now split.
Qed.

(** Every operation but [Destroy] stays on the engine installed. *)
Lemma keeps_exec p (o : op EventImpl EventId) :
  is_Destroy o = false -> keeps p (exec ENABLE_DES_METRICS o).
Proof.
  destruct o; intros Ho; try discriminate Ho; simpl; apply keeps_returning;
    try apply keeps_forward.
  - (* Run *)
    apply keeps_bind; [now apply keeps_emit|]. intros _. apply keeps_forward.
  - (* Schedule *)
    apply keeps_bind; [|intros _; apply keeps_forward].
    destruct ENABLE_DES_METRICS; [|apply keeps_ret].
    apply keeps_bind; [apply keeps_Now|]. intros now. now apply keeps_emit.
  - (* ScheduleNow *)
    apply keeps_bind; [|intros _; apply keeps_forward].
    destruct ENABLE_DES_METRICS; [|apply keeps_ret].
    apply keeps_bind; [apply keeps_Now|]. intros now. now apply keeps_emit.
  - (* ScheduleWithContext *)
    apply keeps_bind; [|intros _; apply keeps_forward].
    destruct ENABLE_DES_METRICS; [|apply keeps_ret].
    apply keeps_bind; [apply keeps_Now|]. intros now. now apply keeps_emit.
  - (* Remove *) apply keeps_PeekImpl, keeps_forward.
  - (* Cancel *) apply keeps_PeekImpl, keeps_forward.
  - (* IsExpired *) apply keeps_PeekImpl, keeps_forward.
  - (* GetSystemId *) apply keeps_PeekImpl, keeps_forward.
  - (* SetImplementation *) apply keeps_SetImplementation.
  - (* GetImplementation *)
    apply keeps_GetImpl, keeps_bind; [apply keeps_Ref|]. intros _.
    apply keeps_ret.
Qed.

(** *** Lazy construction *)

Lemma GetImpl_None w :
  pimpl w = None ->
  GetImpl w =
    match impl_SetScheduler (g_schedTypeImpl w) (Create (g_simTypeImpl w)) with
    | inl msg => Fatal msg (emit (ACall (next_ref w) MSetScheduler) (registered w))
    | inr (_, e') =>
        Done (next_ref w)
          {| pimpl := Some (next_ref w);
             heap := <[next_ref w := mkObject e' 1%nat]> (heap w);
             next_ref := Pos.succ (next_ref w);
             g_simTypeImpl := g_simTypeImpl w;
             g_schedTypeImpl := g_schedTypeImpl w;
             timePrinter := Some DefaultTimePrinter;
             nodePrinter := Some DefaultNodePrinter;
             trace := trace w ++ construction_steps (next_ref w) |}
    end.
Proof.
  intros Hp. unfold GetImpl, bind, PeekImpl. rewrite Hp.
  unfold get_simTypeImpl, create, store, get_schedTypeImpl, invoke, emit; cbn.
  rewrite lookup_insert_eq. cbn.
  destruct (impl_SetScheduler _ _) as [msg|[[] e']]; cbn.
  - unfold registered. now rewrite <- !app_assoc.
  - rewrite insert_insert_eq. unfold construction_steps, ret, emit; cbn.
    now rewrite <- !app_assoc.
Qed.

(** *** Teardown *)

Lemma Destroy_Some w p :
  pimpl w = Some p ->
  Destroy w =
    match heap w !! p with
    | None => Undefined (unhooked w)
    | Some o =>
        match impl_Destroy (obj_engine o) with
        | inl msg => Fatal msg (emit (ACall p MDestroy) (unhooked w))
        | inr (_, e') =>
            Done tt
              {| pimpl := None;
                 heap := released p o e' (heap w);
                 next_ref := next_ref w;
                 g_simTypeImpl := g_simTypeImpl w;
                 g_schedTypeImpl := g_schedTypeImpl w;
                 timePrinter := None; nodePrinter := None;
                 trace := trace w ++ destruction_steps p |}
        end
    end.
Proof.
  intros Hp. unfold Destroy, bind, PeekImpl. rewrite Hp.
  unfold LogSetTimePrinter, LogSetNodePrinter, invoke, emit; cbn.
  destruct (heap w !! p) as [o|] eqn:Hh.
  - destruct (impl_Destroy (obj_engine o)) as [msg|[[] e']]; cbn.
    + unfold unhooked. now rewrite <- !app_assoc.
    + unfold Unref, store, emit, set_heap, released, destruction_steps; cbn.
      rewrite lookup_insert_eq; cbn. rewrite <- !app_assoc; cbn.
      destruct (obj_refs o) as [|[|n]];
        now rewrite ?insert_insert_eq, ?delete_insert_eq.
  - unfold unhooked. now rewrite <- !app_assoc.
Qed.

Lemma Destroy_null w :
  pimpl w = None -> Destroy w = Done tt w.
Proof. intros Hp. unfold Destroy, bind, PeekImpl. now rewrite Hp. Qed.

(** C9. [Simulator::Destroy] with a null implementation pointer returns at
    once, in the world it was called in: no engine is built, both print
    hooks and the trace are as they were, and the call neither aborts nor
    dereferences anything. *)
Theorem Destroy_without_engine w :
  pimpl w = None ->
  Destroy w = Done tt w /\
  timePrinter (final (Destroy w)) = timePrinter w /\
  nodePrinter (final (Destroy w)) = nodePrinter w /\
  heap (final (Destroy w)) = heap w /\
  trace (final (Destroy w)) = trace w.
Proof. intros Hp. now rewrite (Destroy_null w Hp). Qed.

(** C3. With a null implementation pointer [Simulator::IsExpired] answers
    [true] for every [EventId], in the world it was called in: no engine is
    built. *)
Theorem IsExpired_without_engine (id : EventId) w :
  pimpl w = None -> IsExpired id w = Done true w.
Proof. intros Hp. unfold IsExpired, bind, PeekImpl. now rewrite Hp. Qed.

(** C4. With a null implementation pointer [Simulator::Cancel] and
    [Simulator::Remove] return at once for every [EventId]: the world is
    the one they were called in (no engine built, nothing changed), and
    they neither abort nor dereference anything. *)
Theorem Cancel_Remove_without_engine (id : EventId) w :
  pimpl w = None -> Cancel id w = Done tt w /\ Remove id w = Done tt w.
Proof.
  intros Hp. unfold Cancel, Remove, bind, PeekImpl. now rewrite Hp.
Qed.

Lemma SetImplementation_Some (impl : ref) w p :
  pimpl w = Some p -> SetImplementation impl w = Fatal SetImplementation_late w.
Proof.
  intros Hp. unfold SetImplementation, bind, PeekImpl, NS_FATAL_ERROR.
  now rewrite Hp.
Qed.

Lemma SetImplementation_None (impl : ref) w o :
  pimpl w = None -> heap w !! impl = Some o ->
  pimpl (final (SetImplementation impl w)) = Some impl /\
  forall e', impl_SetScheduler (g_schedTypeImpl w) (obj_engine o) = inr (tt, e') ->
    SetImplementation impl w = Done tt (installed impl o e' w).
Proof.
  intros Hp Ho.
  unfold SetImplementation, bind, PeekImpl, Ref, store, get_schedTypeImpl,
    invoke, LogSetTimePrinter, LogSetNodePrinter, ret, emit, set_heap.
  rewrite Hp; cbn. rewrite Ho; cbn. rewrite lookup_insert_eq; cbn.
  split.
  - now destruct (impl_SetScheduler _ _) as [msg|[[] e]].
  - intros e' He. rewrite He; cbn. rewrite insert_insert_eq.
    unfold installed. now rewrite <- !app_assoc.
Qed.

(** C1. [Simulator::SetImplementation]: when the implementation pointer is
    not null the call is the fatal error of the function, in the world it
    was called in; when it is null and [impl] is a live engine, the pointer
    holds [impl] from then on, and if the engine accepts the default
    scheduler the call returns with [impl] installed, owned once more, given
    the scheduler of [g_schedTypeImpl], and with both print hooks set. *)
Theorem SetImplementation_once (impl : ref) w :
  (forall p, pimpl w = Some p ->
     SetImplementation impl w = Fatal SetImplementation_late w) /\
  (forall o, pimpl w = None -> heap w !! impl = Some o ->
     pimpl (final (SetImplementation impl w)) = Some impl /\
     forall e', impl_SetScheduler (g_schedTypeImpl w) (obj_engine o) = inr (tt, e') ->
       SetImplementation impl w = Done tt (installed impl o e' w)).
Proof.
  split.
  - intros p. apply SetImplementation_Some.
  - intros o. apply SetImplementation_None.
Qed.

(** C5. Order of the steps.  On the lazy path of [GetImpl] (pointer null)
    what is added to the trace is an initial part of: create the engine,
    store it in the static pointer, give it its scheduler, install the time
    printer, install the node printer; it is never empty, and it is the
    whole sequence when [GetImpl] returns.  In [Destroy] (pointer not null)
    what is added is an initial part of: remove the time printer, remove the
    node printer, destroy the engine, release it, clear the static pointer;
    and the whole sequence when [Destroy] returns. *)
Theorem hooks_order w :
  (pimpl w = None ->
     exists t, trace (final (GetImpl w)) = trace w ++ t /\
       [ACreate (next_ref w); AStore (Some (next_ref w));
        ACall (next_ref w) MSetScheduler] `prefix_of` t /\
       t `prefix_of` construction_steps (next_ref w) /\
       (is_done (GetImpl w) = true -> t = construction_steps (next_ref w))) /\
  (forall p, pimpl w = Some p ->
     exists t, trace (final (Destroy w)) = trace w ++ t /\
       [ATimePrinter None; ANodePrinter None] `prefix_of` t /\
       t `prefix_of` destruction_steps p /\
       (is_done (Destroy w) = true -> t = destruction_steps p)).
Proof.
  split.
  - intros Hp. rewrite (GetImpl_None w Hp).
    destruct (impl_SetScheduler _ _) as [msg|[[] e']]; unfold registered; cbn.
    + exists [ACreate (next_ref w); AStore (Some (next_ref w));
              ACall (next_ref w) MSetScheduler].
      split; [now rewrite <- app_assoc|]. split; [reflexivity|].
      split; [|discriminate]. now eexists [_; _].
    + exists (construction_steps (next_ref w)).
      split; [reflexivity|]. split; [now eexists [_; _]|]. now split.
  - intros p Hp. rewrite (Destroy_Some w p Hp).
    destruct (heap w !! p) as [o|]; unfold unhooked; cbn.
    + destruct (impl_Destroy (obj_engine o)) as [msg|[[] e']]; cbn.
      * exists [ATimePrinter None; ANodePrinter None; ACall p MDestroy].
        split; [now rewrite <- app_assoc|]. split; [now eexists [_]|].
        split; [|discriminate]. now eexists [_; _].
      * exists (destruction_steps p).
        split; [reflexivity|]. split; [now eexists [_; _; _]|]. now split.
    + exists [ATimePrinter None; ANodePrinter None].
      split; [reflexivity|]. split; [reflexivity|].
      split; [|discriminate]. now eexists [_; _; _].
Qed.

(** *** Computations that build the engine *)

Lemma builds_GetImpl {A} (k : ref -> M Engine A) :
  (forall q, keeps q (k q)) -> builds (bind GetImpl k).
Proof.
  intros Hk w Hw. unfold bind. rewrite (GetImpl_None w Hw).
  destruct (impl_SetScheduler _ _) as [msg|[[] e']]; cbn.
  - split; [reflexivity|]. eexists [_; _; _]. split.
    + now rewrite <- app_assoc.
    + apply list_elem_of_here.
  - match goal with |- context [k _ ?w1] =>
      destruct (Hk (next_ref w) w1 eq_refl) as [H1 (t & H2 & _)] end.
    split; [exact H1|]. exists (construction_steps (next_ref w) ++ t). split.
    + now rewrite H2, app_assoc.
    + apply elem_of_app. left. apply list_elem_of_here.
Qed.

Lemma builds_forward {A} m (f : Engine -> eres Engine A) :
  builds (bind GetImpl (fun q => invoke q m f)).
Proof. apply builds_GetImpl. intros q. apply keeps_invoke. Qed.

Lemma builds_bind {A B} (c : M Engine A) (k : A -> M Engine B) :
  builds c -> (forall x q, keeps q (k x)) -> builds (bind c k).
Proof.
  intros Hc Hk w Hw. unfold bind.
  destruct (Hc w Hw) as [H1 (t & H2 & H3)].
  destruct (c w) as [x w'|msg w'|w']; simpl in *; try (split; [assumption|eauto]).
  destruct (Hk x _ w' H1) as [H4 (t' & H5 & _)].
  split; [assumption|]. exists (t ++ t'). split.
  - now rewrite H5, H2, app_assoc.
  - apply elem_of_app. now left.
Qed.

Lemma builds_after_emit {A} a (k : M Engine A) :
  builds k -> builds (bind (fun w => Done tt (emit a w)) (fun _ => k)).
Proof.
  intros Hk w Hw. unfold bind.
  destruct (Hk (emit a w) Hw) as [H1 (t & H2 & H3)].
  split; [exact H1|]. exists (a :: t). split.
  - rewrite H2. cbn. now rewrite <- app_assoc.
  - now apply list_elem_of_further.
Qed.

Lemma builds_returning {A} (inj : A -> value EventId) (c : M Engine A) :
  builds c -> builds (returning inj c).
Proof. intros Hc. apply builds_bind; [exact Hc|]. intros x q. apply keeps_ret. Qed.

(** With the metrics on, the clock is read first: that call builds the
    engine, and the call that schedules finds it. *)
Lemma builds_metered {A} (record : Time -> action) m
  (f : Engine -> eres Engine A) :
  (forall now q, on_engine q (record now)) ->
  builds
    (bind (if ENABLE_DES_METRICS
           then bind Now (fun now w => Done tt (emit (record now) w))
           else ret tt)
       (fun _ => bind GetImpl (fun p => invoke p m f))).
Proof.
  intros Hrecord. destruct ENABLE_DES_METRICS.
  - apply builds_bind.
    + apply builds_bind; [apply builds_forward|]. intros now q.
      apply keeps_emit, Hrecord.
    + intros _ q. apply keeps_forward.
  - apply (builds_forward m f).
Qed.

(** Every operation that needs the engine builds it when there is none. *)
Lemma builds_exec (o : op EventImpl EventId) :
  needs_engine o = true -> builds (exec ENABLE_DES_METRICS o).
Proof.
  destruct o; intros Ho; try discriminate Ho; simpl; apply builds_returning;
    try apply builds_forward.
  - (* Run *) apply builds_after_emit, builds_forward.
  - (* Schedule *)
    now apply (builds_metered (fun now => ADesTrace now delay)).
  - (* ScheduleNow *)
    now apply (builds_metered (fun now => ADesTrace now 0)).
  - (* ScheduleWithContext *)
    now apply (builds_metered
                 (fun now => ADesTraceWithContext context now delay)).
  - (* GetImplementation *)
    apply builds_GetImpl. intros q. apply keeps_bind; [apply keeps_Ref|].
    intros _. apply keeps_ret.
Qed.

(** *** The store stays well formed *)

Lemma wf_initial : wf (@initial Engine).
Proof. intros p [o Ho]. cbn in Ho. now rewrite lookup_empty in Ho. Qed.

Lemma wf_mono w w' :
  (forall q, is_Some (heap w' !! q) -> is_Some (heap w !! q)) ->
  next_ref w' = next_ref w ->
  wf w -> wf w'.
Proof. intros Hsub Hnext Hw q Hq. rewrite Hnext. apply Hw, Hsub, Hq. Qed.

Lemma preserves_ret {A} (x : A) : preserves (ret x).
Proof. intros w Hw. exact Hw. Qed.

Lemma preserves_bind {A B} (c : M Engine A) (k : A -> M Engine B) :
  preserves c -> (forall x, preserves (k x)) -> preserves (bind c k).
Proof.
  intros Hc Hk w Hw. unfold bind. specialize (Hc w Hw).
  destruct (c w) as [x w'|msg w'|w']; try exact Hc. now apply Hk.
Qed.

Lemma preserves_read {A} (g : World Engine -> A) :
  preserves (fun w => Done (g w) w).
Proof. intros w Hw. exact Hw. Qed.

Lemma preserves_emit a : preserves (fun w => Done tt (emit a w)).
Proof. intros w Hw. exact Hw. Qed.

Lemma preserves_fatal {A} msg : preserves (@NS_FATAL_ERROR Engine A msg).
Proof. intros w Hw. exact Hw. Qed.

Lemma preserves_store v : preserves (store v).
Proof. intros w Hw. exact Hw. Qed.

Lemma preserves_LogSetTimePrinter h : preserves (LogSetTimePrinter h).
Proof. intros w Hw. exact Hw. Qed.

Lemma preserves_LogSetNodePrinter h : preserves (LogSetNodePrinter h).
Proof. intros w Hw. exact Hw. Qed.

Lemma preserves_create tid : preserves (create tid).
Proof.
  intros w Hw q Hq. cbn in *. destruct (decide (q = next_ref w)) as [->|Hne].
  - lia.
  - rewrite lookup_insert_ne in Hq by congruence. specialize (Hw q Hq). lia.
Qed.

Lemma preserves_Ref p : preserves (Ref p).
Proof.
  intros w Hw. unfold Ref. destruct (heap w !! p) as [o|] eqn:Ho; [|exact Hw].
  apply (wf_mono w); [|reflexivity|exact Hw]. intros q Hq. cbn in Hq.
  destruct (decide (q = p)) as [->|Hne]; [now rewrite Ho|].
  now rewrite lookup_insert_ne in Hq by congruence.
Qed.

Lemma preserves_Unref p : preserves (Unref p).
Proof.
  intros w Hw. unfold Unref. destruct (heap w !! p) as [o|] eqn:Ho; [|exact Hw].
  apply (wf_mono w); [|reflexivity|exact Hw]. intros q Hq. cbn in Hq.
  destruct (decide (q = p)) as [->|Hne]; [now rewrite Ho|].
  destruct (obj_refs o) as [|[|n]];
    now rewrite ?lookup_insert_ne, ?lookup_delete_ne in Hq by congruence.
Qed.

Lemma preserves_invoke {A} p m (f : Engine -> eres Engine A) :
  preserves (invoke p m f).
Proof.
  intros w Hw.
  destruct (invoke_cases p m f w)
    as [[_ ->]|[(o & msg & _ & _ & ->)|(o & r & e' & Ho & _ & ->)]];
    try exact Hw.
  apply (wf_mono w); [|reflexivity|exact Hw]. intros q Hq. cbn in Hq.
  destruct (decide (q = p)) as [->|Hne]; [now rewrite Ho|].
  now rewrite lookup_insert_ne in Hq by congruence.
Qed.

Create HintDb facade discriminated.

#[local] Hint Resolve preserves_ret preserves_emit preserves_fatal
  preserves_store preserves_LogSetTimePrinter preserves_LogSetNodePrinter
  preserves_create preserves_Ref preserves_Unref preserves_invoke : facade.

(** One step through a facade function: a sequence, a branch on the pointer
    or on the metrics switch, or a primitive. *)
Ltac preserves_step :=
  cbv beta;
  first
    [ apply preserves_bind; [|intros ?]
    | match goal with
      | |- preserves (match ?x with _ => _ end) => destruct x
      end
    | solve [auto with facade]
    | apply preserves_read ].

Ltac preserves_facade :=
  unfold GetImplementation, SetImplementation, GetSystemId, GetEventCount,
    GetContext, GetMaximumSimulationTime, IsExpired, Cancel, Remove,
    ScheduleDestroy, ScheduleWithContext, ScheduleNow, Schedule,
    DoScheduleDestroy, DoScheduleNow, DoSchedule, GetDelayLeft, Now, StopAt,
    Stop, Run, IsFinished, SetScheduler, Destroy, GetImpl, PeekImpl,
    get_simTypeImpl, get_schedTypeImpl, ClearMarkedTimes, DesTrace,
    DesTraceWithContext, returning;
  repeat preserves_step.

(** Every operation of the facade keeps the store well formed, however it
    ends. *)
Lemma preserves_exec (o : op EventImpl EventId) :
  preserves (exec ENABLE_DES_METRICS o).
Proof. destruct o; cbn [exec]; preserves_facade. Qed.

Lemma wf_run (os : list (op EventImpl EventId)) w :
  wf w -> wf (run ENABLE_DES_METRICS os w).
Proof.
  revert w. induction os as [|o os IH]; intros w Hw; [exact Hw|].
  cbn [run]. pose proof (preserves_exec o w Hw) as Ho.
  destruct (exec ENABLE_DES_METRICS o w) as [x w'|msg w'|w']; try exact Ho.
  now apply IH.
Qed.

(** *** Queries before any engine exists *)


(** *** Restart *)

Lemma Destroy_Done w w1 :
  Destroy w = Done tt w1 ->
  pimpl w1 = None /\ next_ref w1 = next_ref w /\
  g_simTypeImpl w1 = g_simTypeImpl w /\ g_schedTypeImpl w1 = g_schedTypeImpl w /\
  forall p, pimpl w = Some p -> is_Some (heap w !! p).
Proof.
  destruct (pimpl w) as [p|] eqn:Hp.
  - rewrite (Destroy_Some w p Hp).
    destruct (heap w !! p) as [o|] eqn:Ho; [|discriminate].
    destruct (impl_Destroy (obj_engine o)) as [msg|[[] e']]; [discriminate|].
    intros [= <-]. cbn. repeat split. intros q [= <-]. now rewrite Ho.
  - rewrite (Destroy_null w Hp). intros [= <-].
    repeat split; try assumption. intros q Hq. discriminate Hq.
Qed.

(** C6. Once [Simulator::Destroy] has returned, the implementation pointer
    is null; every operation that needs the engine then builds one: the
    pointer ends on an object that did not exist before [Destroy] (so not
    the engine destroyed), created by that very operation.  When [GetImpl]
    returns, that object is the engine the factory makes for
    [g_simTypeImpl], after its scheduler was set, with the facade as its
    only owner. *)
Theorem Destroy_then_new_engine w w1 (o : op EventImpl EventId) :
  wf w -> Destroy w = Done tt w1 -> needs_engine o = true ->
  pimpl w1 = None /\
  pimpl (final (exec ENABLE_DES_METRICS o w1)) = Some (next_ref w1) /\
  heap w !! next_ref w1 = None /\
  pimpl w <> Some (next_ref w1) /\
  (exists t, trace (final (exec ENABLE_DES_METRICS o w1)) = trace w1 ++ t /\
     ACreate (next_ref w1) ∈ t) /\
  (forall q w2, GetImpl w1 = Done q w2 ->
     q = next_ref w1 /\
     exists e', impl_SetScheduler (g_schedTypeImpl w) (Create (g_simTypeImpl w))
                  = inr (tt, e') /\
       heap w2 !! q = Some (mkObject e' 1)).
Proof.
  intros Hwf HD Ho.
  destruct (Destroy_Done w w1 HD) as (Hp1 & Hn & Hsim & Hsched & Hlive).
  assert (Hfresh : heap w !! next_ref w1 = None).
  { rewrite Hn. destruct (heap w !! next_ref w) as [x|] eqn:Hx; [|reflexivity].
    assert (next_ref w < next_ref w)%positive by (apply Hwf; now rewrite Hx).
    lia. }
  destruct (builds_exec o Ho w1 Hp1) as [Hq Ht].
  split; [exact Hp1|]. split; [exact Hq|]. split; [exact Hfresh|].
  split; [|split; [exact Ht|]].
  - intros Hp. specialize (Hlive _ Hp). rewrite Hfresh in Hlive.
    now destruct Hlive.
  - intros q w2 HG. rewrite (GetImpl_None w1 Hp1), Hsim, Hsched in HG.
    destruct (impl_SetScheduler _ _) as [msg|[[] e']]; [discriminate|].
    injection HG as <- <-. split; [reflexivity|].
    exists e'. split; [reflexivity|]. cbn. apply lookup_insert_eq.
Qed.

(** C10. Once [Simulator::Destroy] has returned, [SetImplementation] on a
    live engine does not meet its fatal error: the pointer holds the engine,
    and if the engine accepts the default scheduler the call returns with
    the engine installed, owned once more, given the scheduler of
    [g_schedTypeImpl], and with both print hooks set. *)
Theorem SetImplementation_after_Destroy w w1 (impl : ref) (o : object Engine) :
  Destroy w = Done tt w1 -> heap w1 !! impl = Some o ->
  pimpl (final (SetImplementation impl w1)) = Some impl /\
  forall e', impl_SetScheduler (g_schedTypeImpl w) (obj_engine o) = inr (tt, e') ->
    SetImplementation impl w1 = Done tt (installed impl o e' w1) /\
    heap (installed impl o e' w1) !! impl = Some (mkObject e' (S (obj_refs o))).
Proof.
  intros HD Ho.
  destruct (Destroy_Done w w1 HD) as (Hp1 & _ & _ & Hsched & _).
  destruct (SetImplementation_None impl w1 o Hp1 Ho) as [H1 H2].
  split; [exact H1|]. intros e' He'. split.
  - apply H2. now rewrite Hsched.
  - cbn. apply lookup_insert_eq.
Qed.

(** *** One engine at a time *)

Lemma keeps_run p (os : list (op EventImpl EventId)) w :
  pimpl w = Some p -> Forall (fun o => is_Destroy o = false) os ->
  pimpl (run ENABLE_DES_METRICS os w) = Some p /\
  exists t, trace (run ENABLE_DES_METRICS os w) = trace w ++ t /\
    Forall (on_engine p) t.
Proof.
  revert w. induction os as [|o os IH]; intros w Hw Hos.
  - split; [exact Hw|]. exists []. now rewrite app_nil_r.
  - apply Forall_cons in Hos as [Ho Hos]. cbn [run].
    destruct (keeps_exec p o Ho w Hw) as [H1 (t & H2 & H3)].
    destruct (exec ENABLE_DES_METRICS o w) as [x w'|msg w'|w']; cbn in H1, H2;
      try (split; [exact H1|now exists t]).
    destruct (IH w' H1 Hos) as [H4 (t' & H5 & H6)].
    split; [exact H4|]. exists (t ++ t'). split.
    + now rewrite H5, H2, app_assoc.
    + now apply Forall_app.
Qed.

Lemma guarded_without_engine (o : op EventImpl EventId) w :
  pimpl w = None -> needs_engine o = false ->
  (forall q, o <> OpSetImplementation q) ->
  exists v, exec ENABLE_DES_METRICS o w = Done v w.
Proof.
  intros Hp Ho Hset. destruct o; try discriminate Ho; cbn [exec];
    unfold returning, Destroy, Remove, Cancel, IsExpired, GetSystemId, bind,
      PeekImpl, ret; rewrite ?Hp; eauto.
  now destruct (Hset impl).
Qed.

(** *** Every operation forwards to the engine installed *)

Lemma returning_invoke {A} (inj : A -> value EventId) p m
  (f : Engine -> eres Engine A) w :
  returning inj (invoke p m f) w = invoke p m (as_value inj f) w.
Proof.
  unfold returning, bind, ret, invoke, as_value.
  destruct (heap w !! p) as [o|]; [|reflexivity].
  now destruct (f (obj_engine o)) as [msg|[r e']].
Qed.

Lemma returning_forward {A} (inj : A -> value EventId) p m
  (f : Engine -> eres Engine A) w :
  pimpl w = Some p ->
  returning inj (bind GetImpl (fun q => invoke q m f)) w =
  invoke p m (as_value inj f) w.
Proof.
  intros Hp. rewrite <- returning_invoke. unfold returning, bind.
  now rewrite (GetImpl_Some w p Hp).
Qed.

Lemma returning_guarded {A} (inj : A -> value EventId) p
  (k : option ref -> M Engine A) w :
  pimpl w = Some p ->
  returning inj (bind PeekImpl k) w = returning inj (k (Some p)) w.
Proof. intros Hp. unfold returning, bind, PeekImpl. now rewrite Hp. Qed.

Lemma returning_metered {A} (inj : A -> value EventId) p
  (record : Time -> action) m (f : Engine -> eres Engine A) w :
  pimpl w = Some p ->
  returning inj
    (bind (bind Now (fun now w' => Done tt (emit (record now) w')))
       (fun _ => bind GetImpl (fun q => invoke q m f))) w =
  bind (bind (invoke p MNow impl_Now)
          (fun now w' => Done tt (emit (record now) w')))
    (fun _ => invoke p m (as_value inj f)) w.
Proof.
  intros Hp. unfold Now. unfold returning, bind.
  rewrite (GetImpl_Some w p Hp).
  destruct (invoke_cases p MNow impl_Now w)
    as [[_ ->]|[(o & msg & _ & _ & ->)|(o & r & e' & _ & _ & ->)]];
    try reflexivity.
  match goal with |- context [GetImpl ?w1] =>
    rewrite (GetImpl_Some w1 p Hp) end.
  rewrite <- returning_invoke. reflexivity.
Qed.

(** With [p] installed, an operation is what it does beforehand followed by
    its virtual call on [p]. *)
Lemma forwards_exec p (o : op EventImpl EventId) m
  (f : Engine -> eres Engine (value EventId)) w :
  pimpl w = Some p -> virtual_call o = Some (m, f) ->
  exec ENABLE_DES_METRICS o w =
  bind (announce ENABLE_DES_METRICS p o) (fun _ => invoke p m f) w.
Proof.
  intros Hp Hv.
  destruct o; cbn in Hv; try discriminate Hv; injection Hv as <- <-;
    cbn [exec announce];
    try exact (returning_forward _ p _ _ w Hp).
  - (* Run *)
    exact (returning_forward _ p _ _ (emit AClearMarkedTimes w) Hp).
  - (* Schedule *)
    destruct ENABLE_DES_METRICS.
    + exact (returning_metered _ p (fun now => ADesTrace now delay) _ _ w Hp).
    + exact (returning_forward _ p _ _ w Hp).
  - (* ScheduleNow *)
    destruct ENABLE_DES_METRICS.
    + exact (returning_metered _ p (fun now => ADesTrace now 0) _ _ w Hp).
    + exact (returning_forward _ p _ _ w Hp).
  - (* ScheduleWithContext *)
    destruct ENABLE_DES_METRICS.
    + exact (returning_metered _ p
               (fun now => ADesTraceWithContext context now delay) _ _ w Hp).
    + exact (returning_forward _ p _ _ w Hp).
  - (* Remove *)
    unfold Remove. rewrite (returning_guarded _ p _ w Hp).
    exact (returning_forward _ p _ _ w Hp).
  - (* Cancel *)
    unfold Cancel. rewrite (returning_guarded _ p _ w Hp).
    exact (returning_forward _ p _ _ w Hp).
  - (* IsExpired *)
    unfold IsExpired. rewrite (returning_guarded _ p _ w Hp).
    exact (returning_forward _ p _ _ w Hp).
  - (* GetSystemId *)
    unfold GetSystemId. rewrite (returning_guarded _ p _ w Hp).
    exact (returning_forward _ p _ _ w Hp).
Qed.

Lemma announce_trace p (o : op EventImpl EventId) w :
  exists t, trace (final (announce ENABLE_DES_METRICS p o w)) = trace w ++ t.
Proof.
  assert (Hret : exists t, trace (final (@ret Engine unit tt w)) = trace w ++ t)
    by (exists []; cbn; now rewrite app_nil_r).
  assert (Hrec : forall record : Time -> action,
             exists t, trace (final (bind (invoke p MNow impl_Now)
                        (fun now w' => Done tt (emit (record now) w')) w))
                       = trace w ++ t).
  { intros record. unfold bind.
    destruct (invoke_cases p MNow impl_Now w)
      as [[_ ->]|[(ob & msg & _ & _ & ->)|(ob & r & e' & _ & _ & ->)]]; cbn.
    - exists []. now rewrite app_nil_r.
    - now eexists [_].
    - eexists [_; _]. now rewrite <- app_assoc. }
  destruct o; cbn [announce]; try exact Hret.
  - now eexists [_].
  - destruct ENABLE_DES_METRICS; [apply Hrec|exact Hret].
  - destruct ENABLE_DES_METRICS; [apply Hrec|exact Hret].
  - destruct ENABLE_DES_METRICS; [apply Hrec|exact Hret].
Qed.

Lemma silent_announce p (o : op EventImpl EventId) :
  silent ENABLE_DES_METRICS o = true ->
  announce ENABLE_DES_METRICS p o = ret tt.
Proof.
  destruct o; cbn; try reflexivity; try discriminate;
    now destruct ENABLE_DES_METRICS.
Qed.

(** What the forward leaves in the trace. *)
Lemma forwards_trace p (o : op EventImpl EventId) m
  (f : Engine -> eres Engine (value EventId)) w :
  pimpl w = Some p -> virtual_call o = Some (m, f) ->
  (is_done (exec ENABLE_DES_METRICS o w) = true ->
   exists t, trace (final (exec ENABLE_DES_METRICS o w))
             = trace w ++ t ++ [ACall p m]) /\
  (silent ENABLE_DES_METRICS o = true -> is_Some (heap w !! p) ->
   trace (final (exec ENABLE_DES_METRICS o w)) = trace w ++ [ACall p m]).
Proof.
  intros Hp Hv. rewrite (forwards_exec p o m f w Hp Hv). split.
  - unfold bind. destruct (announce_trace p o w) as [t Ht].
    destruct (announce ENABLE_DES_METRICS p o w) as [[] w1|msg w1|w1];
      try discriminate. cbn in Ht.
    destruct (invoke_cases p m f w1)
      as [[_ ->]|[(ob & msg & _ & _ & ->)|(ob & r & e' & _ & _ & ->)]];
      try discriminate.
    intros _. exists t. cbn. now rewrite Ht, app_assoc.
  - intros Hs [ob Hob]. rewrite (silent_announce p o Hs). unfold bind, ret.
    destruct (invoke_cases p m f w)
      as [[Hn _]|[(ob' & msg & _ & _ & ->)|(ob' & r & e' & _ & _ & ->)]];
      [congruence|reflexivity..].
Qed.

Lemma GetImplementation_Some p w :
  pimpl w = Some p -> is_Some (heap w !! p) ->
  exists w', GetImplementation w = Done p w' /\
    trace w' = trace w ++ [ARef p].
Proof.
  intros Hp [ob Hob]. unfold GetImplementation, bind.
  rewrite (GetImpl_Some w p Hp). unfold Ref. rewrite Hob. now eexists.
Qed.

(** C7. The facade has one slot for its engine, empty when the process
    starts.  While it is empty, the operations that are guarded return
    without an engine, in the world they were called in, and an operation
    that needs the engine builds it and leaves it installed.  From then on,
    whatever operations follow, [Destroy] apart, the slot holds that same
    engine, no other engine is built, and every virtual call goes to it.
    Each of these operations forwards: run after any part of the sequence,
    it is what it does beforehand followed by its own virtual member
    function, with its own arguments, called on the engine installed; that
    call is the last action in the trace when the operation returns, and
    the only one when the operation does nothing beforehand; and
    [GetImplementation] returns that engine. *)
Theorem single_engine (o : op EventImpl EventId)
  (os : list (op EventImpl EventId)) w :
  pimpl (@initial Engine) = None /\
  (pimpl w = None -> needs_engine o = false ->
   (forall q, o <> OpSetImplementation q) ->
   exists v, exec ENABLE_DES_METRICS o w = Done v w) /\
  (pimpl w = None -> needs_engine o = true ->
   Forall (fun o => is_Destroy o = false) os ->
   let w1 := final (exec ENABLE_DES_METRICS o w) in
   pimpl w1 = Some (next_ref w) /\
   (exists t, trace w1 = trace w ++ t /\ ACreate (next_ref w) ∈ t) /\
   pimpl (run ENABLE_DES_METRICS os w1) = Some (next_ref w) /\
   exists t, trace (run ENABLE_DES_METRICS os w1) = trace w1 ++ t /\
     Forall (on_engine (next_ref w)) t) /\
  (forall p, pimpl w = Some p ->
   Forall (fun o => is_Destroy o = false) os ->
   pimpl (run ENABLE_DES_METRICS os w) = Some p /\
   exists t, trace (run ENABLE_DES_METRICS os w) = trace w ++ t /\
     Forall (on_engine p) t) /\
  (forall w0 p os1 o' os2 m f,
   pimpl w0 = Some p ->
   Forall (fun o => is_Destroy o = false) os ->
   os = os1 ++ o' :: os2 ->
   virtual_call o' = Some (m, f) ->
   let wi := run ENABLE_DES_METRICS os1 w0 in
   pimpl wi = Some p /\
   exec ENABLE_DES_METRICS o' wi =
     bind (announce ENABLE_DES_METRICS p o') (fun _ => invoke p m f) wi /\
   (is_done (exec ENABLE_DES_METRICS o' wi) = true ->
    exists t, trace (final (exec ENABLE_DES_METRICS o' wi))
              = trace wi ++ t ++ [ACall p m]) /\
   (silent ENABLE_DES_METRICS o' = true -> is_Some (heap wi !! p) ->
    trace (final (exec ENABLE_DES_METRICS o' wi))
      = trace wi ++ [ACall p m])) /\
  (forall p, pimpl w = Some p -> is_Some (heap w !! p) ->
   exists w', GetImplementation w = Done p w' /\
     trace w' = trace w ++ [ARef p]).
Proof.
  split; [reflexivity|]. split; [apply guarded_without_engine|].
  split; [|split; [|split]].
  - intros Hp Ho Hos w1. destruct (builds_exec o Ho w Hp) as [H1 H2].
    split; [exact H1|]. split; [exact H2|]. now apply keeps_run.
  - intros p. apply keeps_run.
  - intros w0 p os1 o' os2 m f Hp Hos -> Hv wi.
    apply Forall_app in Hos as [Hos1 _].
    destruct (keeps_run p os1 w0 Hp Hos1) as [Hpi _].
    split; [exact Hpi|]. split; [now apply forwards_exec|].
    exact (forwards_trace p o' m f wi Hpi Hv).
  - intros p. apply GetImplementation_Some.
Qed.

(** *** [ScheduleNow] against [Schedule] *)

Lemma observed_bind {A B} (c : M Engine A) (k1 k2 : A -> M Engine B) w :
  (forall x w', observed (k1 x w') = observed (k2 x w')) ->
  observed (bind c k1 w) = observed (bind c k2 w).
Proof. intros Hk. unfold bind. destruct (c w); [apply Hk|reflexivity..]. Qed.

Section ScheduleNowLaw.

(** The engine's [ScheduleNow] is its [Schedule] at delay 0. *)
Hypothesis ScheduleNow_law :
  forall (ev : EventImpl) (e : Engine),
    impl_ScheduleNow ev e = impl_Schedule 0 ev e.

Lemma observed_invoke_ScheduleNow p (ev : EventImpl) w :
  observed (invoke p MScheduleNow (impl_ScheduleNow ev) w) =
  observed (invoke p MSchedule (impl_Schedule 0 ev) w).
Proof.
  unfold invoke. destruct (heap w !! p) as [o|]; [|reflexivity].
  rewrite ScheduleNow_law.
  destruct (impl_Schedule 0 ev (obj_engine o)) as [msg|[id e']];
    cbn; unfold observe; cbn; now rewrite !map_app.
Qed.

Lemma observed_ScheduleNow (ev : EventImpl) w :
  observed (ScheduleNow ENABLE_DES_METRICS ev w) =
  observed (Schedule ENABLE_DES_METRICS 0 ev w).
Proof.
  unfold ScheduleNow, Schedule, DoScheduleNow, DoSchedule.
  apply observed_bind. intros _ w1. apply observed_bind. intros p w2.
  apply observed_invoke_ScheduleNow.
Qed.

End ScheduleNowLaw.

End Properties.

(** ** Invariants and compositions of the facade *)

Section Compositions.

Context {Engine EventImpl EventId : Type}.
Context `{!SimulatorImpl Engine EventImpl EventId}.
Variable ENABLE_DES_METRICS : bool.

Implicit Types (w : World Engine) (p q : ref) (a : action).

Local Abbreviation steady := (@steady Engine _).
Local Abbreviation starts := (@starts Engine _).
Local Abbreviation reachable := (@reachable Engine EventImpl EventId _).

(** *** Computations on a live engine *)

Lemma steady_ret {A} p (x : A) : steady p (ret x).
Proof. intros w Hp Hl. cbn. repeat split; try assumption. discriminate. Qed.

Lemma steady_bind {A B} p (c : M Engine A) (k : A -> M Engine B) :
  steady p c -> (forall x, steady p (k x)) -> steady p (bind c k).
Proof.
  intros Hc Hk w Hp Hl. unfold bind.
  destruct (Hc w Hp Hl) as (H1 & H2 & H3 & H4 & H5).
  destruct (c w) as [x w'|msg w'|w']; cbn in *.
  - destruct (Hk x w' H1 H2) as (K1 & K2 & K3 & K4 & K5).
    repeat split; try assumption; congruence.
  - repeat split; try assumption. discriminate.
  - now destruct (H5 w').
Qed.

Lemma steady_emit p a : steady p (fun w => Done tt (emit a w)).
Proof. intros w Hp Hl. cbn. repeat split; try assumption. discriminate. Qed.

Lemma steady_invoke {A} p m (f : Engine -> eres Engine A) :
  steady p (invoke p m f).
Proof.
  intros w Hp [o Ho]. unfold invoke. rewrite Ho.
  destruct (f (obj_engine o)) as [msg|[r e']]; cbn.
  - repeat split; try assumption; [now rewrite Ho|discriminate].
  - repeat split; try assumption; [|discriminate].
    rewrite lookup_insert_eq. now eexists.
Qed.

Lemma steady_Ref p : steady p (Ref p).
Proof.
  intros w Hp [o Ho]. unfold Ref. rewrite Ho. cbn.
  repeat split; try assumption; [|discriminate].
  rewrite lookup_insert_eq. now eexists.
Qed.

Lemma steady_GetImpl {A} p (k : ref -> M Engine A) :
  steady p (k p) -> steady p (bind GetImpl k).
Proof.
  intros Hk w Hp Hl. unfold bind. rewrite (GetImpl_Some w p Hp).
  now apply Hk.
Qed.

Lemma steady_PeekImpl {A} p (k : option ref -> M Engine A) :
  steady p (k (Some p)) -> steady p (bind PeekImpl k).
Proof. intros Hk w Hp Hl. unfold bind, PeekImpl. rewrite Hp. now apply Hk. Qed.

Lemma steady_forward {A} p m (f : Engine -> eres Engine A) :
  steady p (bind GetImpl (fun q => invoke q m f)).
Proof. apply steady_GetImpl, steady_invoke. Qed.

Lemma steady_returning {A} p (inj : A -> value EventId) (c : M Engine A) :
  steady p c -> steady p (returning inj c).
Proof.
  intros Hc. apply steady_bind; [exact Hc|]. intros x. apply steady_ret.
Qed.

Lemma steady_metered {A} p (record : Time -> action) m
  (f : Engine -> eres Engine A) :
  steady p
    (bind (if ENABLE_DES_METRICS
           then bind Now (fun now w => Done tt (emit (record now) w))
           else ret tt)
       (fun _ => bind GetImpl (fun q => invoke q m f))).
Proof.
  apply steady_bind; [|intros _; apply steady_forward].
  destruct ENABLE_DES_METRICS; [|apply steady_ret].
  apply steady_bind; [apply steady_forward|]. intros now. apply steady_emit.
Qed.

Lemma steady_SetImplementation p q : steady p (SetImplementation q).
Proof.
  intros w Hp Hl. rewrite (SetImplementation_Some q w p Hp). cbn.
  repeat split; try assumption. discriminate.
Qed.

(** Every operation but [Destroy] is steady on a live engine. *)
Lemma steady_exec p (o : op EventImpl EventId) :
  is_Destroy o = false -> steady p (exec ENABLE_DES_METRICS o).
Proof.
  destruct o; intros Ho; try discriminate Ho; simpl; apply steady_returning;
    try apply steady_forward.
  - (* Run *)
    apply steady_bind; [apply steady_emit|]. intros _. apply steady_forward.
  - (* Schedule *)
    apply (steady_metered p (fun now => ADesTrace now delay)).
  - (* ScheduleNow *)
    apply (steady_metered p (fun now => ADesTrace now 0)).
  - (* ScheduleWithContext *)
    apply (steady_metered p
             (fun now => ADesTraceWithContext context now delay)).
  - (* Remove *) apply steady_PeekImpl, steady_forward.
  - (* Cancel *) apply steady_PeekImpl, steady_forward.
  - (* IsExpired *) apply steady_PeekImpl, steady_forward.
  - (* GetSystemId *) apply steady_PeekImpl, steady_forward.
  - (* SetImplementation *) apply steady_SetImplementation.
  - (* GetImplementation *)
    apply steady_GetImpl, steady_bind; [apply steady_Ref|]. intros _.
    apply steady_ret.
Qed.

(** *** Computations that start the engine *)

Lemma hooked_steady {A} p (c : M Engine A) w :
  steady p c -> pimpl w = Some p -> is_Some (heap w !! p) -> hooked w ->
  hooked (final (c w)).
Proof.
  intros Hc Hp Hl Hh. destruct (Hc w Hp Hl) as (H1 & _ & H3 & H4 & _).
  unfold hooked in *. rewrite Hp in Hh. now rewrite H1, H3, H4.
Qed.

Lemma starts_GetImpl {A} (k : ref -> M Engine A) :
  (forall q, steady q (k q)) -> starts (bind GetImpl k).
Proof.
  intros Hk w Hw. unfold bind. rewrite (GetImpl_None w Hw).
  destruct (impl_SetScheduler _ _) as [msg|[[] e']]; cbn.
  - split; [reflexivity|]. split; [|split; [discriminate|discriminate]].
    rewrite lookup_insert_eq. now eexists.
  - match goal with |- context [k _ ?w1] => set (w1' := w1) end.
    assert (Hp : pimpl w1' = Some (next_ref w)) by reflexivity.
    assert (Hl : is_Some (heap w1' !! next_ref w))
      by (cbn; rewrite lookup_insert_eq; now eexists).
    destruct (Hk (next_ref w) w1' Hp Hl) as (H1 & H2 & _ & _ & H5).
    split; [exact H1|]. split; [exact H2|]. split; [exact H5|]. intros _.
    apply (hooked_steady (next_ref w)); try assumption; [apply Hk|].
    now split.
Qed.

Lemma starts_forward {A} m (f : Engine -> eres Engine A) :
  starts (bind GetImpl (fun q => invoke q m f)).
Proof. apply starts_GetImpl. intros q. apply steady_invoke. Qed.

Lemma starts_bind {A B} (c : M Engine A) (k : A -> M Engine B) :
  starts c -> (forall x q, steady q (k x)) -> starts (bind c k).
Proof.
  intros Hc Hk w Hw. unfold bind.
  destruct (Hc w Hw) as (H1 & H2 & H3 & H4).
  destruct (c w) as [x w'|msg w'|w']; cbn in *.
  - destruct (Hk x _ w' H1 H2) as (K1 & K2 & _ & _ & K5).
    split; [exact K1|]. split; [exact K2|]. split; [exact K5|]. intros _.
    apply (hooked_steady (next_ref w)); try assumption; [apply Hk|].
    now apply H4.
  - repeat split; try assumption; discriminate.
  - now destruct (H3 w').
Qed.

Lemma starts_after_emit {A} a (k : M Engine A) :
  starts k -> starts (bind (fun w => Done tt (emit a w)) (fun _ => k)).
Proof. intros Hk w Hw. unfold bind. exact (Hk (emit a w) Hw). Qed.

Lemma starts_returning {A} (inj : A -> value EventId) (c : M Engine A) :
  starts c -> starts (returning inj c).
Proof.
  intros Hc. apply starts_bind; [exact Hc|]. intros x q. apply steady_ret.
Qed.

Lemma starts_metered {A} (record : Time -> action) m
  (f : Engine -> eres Engine A) :
  starts
    (bind (if ENABLE_DES_METRICS
           then bind Now (fun now w => Done tt (emit (record now) w))
           else ret tt)
       (fun _ => bind GetImpl (fun p => invoke p m f))).
Proof.
  destruct ENABLE_DES_METRICS.
  - apply starts_bind.
    + apply starts_bind; [apply starts_forward|]. intros now q.
      apply steady_emit.
    + intros _ q. apply steady_forward.
  - apply (starts_forward m f).
Qed.

(** Every operation that needs the engine starts it when there is none. *)
Lemma starts_exec (o : op EventImpl EventId) :
  needs_engine o = true -> starts (exec ENABLE_DES_METRICS o).
Proof.
  destruct o; intros Ho; try discriminate Ho; simpl; apply starts_returning;
    try apply starts_forward.
  - (* Run *) apply starts_after_emit, starts_forward.
  - (* Schedule *)
    apply (starts_metered (fun now => ADesTrace now delay)).
  - (* ScheduleNow *)
    apply (starts_metered (fun now => ADesTrace now 0)).
  - (* ScheduleWithContext *)
    apply (starts_metered
             (fun now => ADesTraceWithContext context now delay)).
  - (* GetImplementation *)
    apply starts_GetImpl. intros q. apply steady_bind; [apply steady_Ref|].
    intros _. apply steady_ret.
Qed.

(** *** What holds in every world a process reaches *)

Lemma returning_cases {A} (inj : A -> value EventId) (c : M Engine A) w :
  final (returning inj c w) = final (c w) /\
  is_done (returning inj c w) = is_done (c w) /\
  forall w', returning inj c w = Undefined w' -> c w = Undefined w'.
Proof.
  unfold returning, bind, ret. destruct (c w) as [x w1|msg w1|w1]; cbn.
  - split; [reflexivity|]. split; [reflexivity|]. intros w' Hw'.
    discriminate Hw'.
  - split; [reflexivity|]. split; [reflexivity|]. intros w' Hw'.
    discriminate Hw'.
  - split; [reflexivity|]. split; [reflexivity|]. now intros w' [= ->].
Qed.

Lemma SetImplementation_dead (impl : ref) w :
  pimpl w = None -> heap w !! impl = None ->
  SetImplementation impl w = Undefined w.
Proof.
  intros Hp Ho. unfold SetImplementation, bind, PeekImpl, Ref, ret.
  rewrite Hp; cbn. now rewrite Ho.
Qed.

Lemma SetImplementation_live (impl : ref) w (o : object Engine) :
  pimpl w = None -> heap w !! impl = Some o ->
  match impl_SetScheduler (g_schedTypeImpl w) (obj_engine o) with
  | inl msg =>
      exists w1, SetImplementation impl w = Fatal msg w1 /\
        pimpl w1 = Some impl /\ is_Some (heap w1 !! impl)
  | inr (_, e') => SetImplementation impl w = Done tt (installed impl o e' w)
  end.
Proof.
  intros Hp Ho.
  unfold SetImplementation, bind, PeekImpl, Ref, store, get_schedTypeImpl,
    invoke, LogSetTimePrinter, LogSetNodePrinter, ret, emit, set_heap.
  rewrite Hp; cbn. rewrite Ho; cbn. rewrite lookup_insert_eq; cbn.
  destruct (impl_SetScheduler _ _) as [msg|[[] e']]; cbn.
  - eexists. split; [reflexivity|]. cbn. split; [reflexivity|].
    rewrite lookup_insert_eq. now eexists.
  - rewrite insert_insert_eq. unfold installed. now rewrite <- !app_assoc.
Qed.

(** One call of the facade, from a world where the pointer is null or live. *)
Lemma sound_exec (o : op EventImpl EventId) w :
  live w ->
  live (final (exec ENABLE_DES_METRICS o w)) /\
  (hooked w -> is_done (exec ENABLE_DES_METRICS o w) = true ->
   hooked (final (exec ENABLE_DES_METRICS o w))) /\
  (forall w', exec ENABLE_DES_METRICS o w = Undefined w' ->
   exists q, o = OpSetImplementation q /\ pimpl w = None /\
     heap w !! q = None).
Proof.
  intros Hl. destruct (pimpl w) as [p|] eqn:Hp.
  - destruct (is_Destroy o) eqn:Ho.
    + destruct o; try discriminate Ho. cbn [exec].
      destruct (returning_cases (fun _ : unit => @VVoid EventId) Destroy w)
        as (-> & -> & HU).
      destruct (Hl p Hp) as [ob Hob].
      assert (HD := Destroy_Some w p Hp). rewrite Hob in HD.
      destruct (impl_Destroy (obj_engine ob)) as [msg|[[] e']].
      * rewrite HD; cbn. split; [|split; [discriminate|]].
        -- intros q Hq. cbn in Hq. rewrite Hp in Hq. injection Hq as <-.
           cbn. now rewrite Hob.
        -- intros w' HU'. apply HU in HU'. rewrite HD in HU'.
           discriminate HU'.
      * rewrite HD; cbn. split; [|split].
        -- intros q Hq. discriminate Hq.
        -- intros _ _. now split.
        -- intros w' HU'. apply HU in HU'. rewrite HD in HU'.
           discriminate HU'.
    + destruct (steady_exec p o Ho w Hp (Hl p Hp)) as (H1 & H2 & H3 & H4 & H5).
      split; [|split].
      * intros q Hq. rewrite H1 in Hq. now injection Hq as <-.
      * intros Hh _. apply (hooked_steady p); try assumption.
        -- now apply steady_exec.
        -- now apply Hl.
      * intros w' HU. now destruct (H5 w').
  - destruct (needs_engine o) eqn:Hn.
    + destruct (starts_exec o Hn w Hp) as (H1 & H2 & H3 & H4).
      split; [|split].
      * intros q Hq. rewrite H1 in Hq. now injection Hq as <-.
      * intros _. exact H4.
      * intros w' HU. now destruct (H3 w').
    + assert (Hcase : (exists q, o = OpSetImplementation q) \/
                      (forall q, o <> OpSetImplementation q)).
      { destruct o; try (right; discriminate). left. now eexists. }
      destruct Hcase as [[q ->]|Hne].
      * cbn [exec].
        destruct (returning_cases (fun _ : unit => @VVoid EventId)
                    (SetImplementation q) w) as (-> & -> & HU).
        destruct (heap w !! q) as [ob|] eqn:Hob.
        -- assert (HS := SetImplementation_live q w ob Hp Hob).
           destruct (impl_SetScheduler _ _) as [msg|[[] e']].
           ++ destruct HS as (w1 & HS & HS1 & HS2). rewrite HS; cbn.
              split; [|split; [discriminate|]].
              ** intros r Hr. rewrite HS1 in Hr. now injection Hr as <-.
              ** intros w' HU'. apply HU in HU'. rewrite HS in HU'.
                 discriminate HU'.
           ++ rewrite HS; cbn. split; [|split].
              ** intros r Hr. injection Hr as <-. cbn.
                 rewrite lookup_insert_eq. now eexists.
              ** intros _ _. now split.
              ** intros w' HU'. apply HU in HU'. rewrite HS in HU'.
                 discriminate HU'.
        -- rewrite (SetImplementation_dead q w Hp Hob); cbn.
           split; [exact Hl|]. split; [discriminate|].
           intros w' _. now exists q.
      * destruct (guarded_without_engine ENABLE_DES_METRICS o w Hp Hn Hne)
          as [v Hv].
        rewrite Hv; cbn. split; [exact Hl|]. split; [now intros|].
        discriminate.
Qed.

Lemma reachable_sound w :
  reachable ENABLE_DES_METRICS w -> live w /\ hooked w.
Proof.
  induction 1 as [|o w v w' _ [IHl IHh] Hexec|tid w _ [IHl IHh]].
  - split; [intros p Hp; discriminate Hp|]. now split.
  - destruct (sound_exec o w IHl) as (H1 & H2 & _).
    rewrite Hexec in H1, H2. cbn in H1, H2. split; [exact H1|]. now apply H2.
  - split; [|exact IHh]. intros p Hp. cbn in Hp. cbn.
    destruct (decide (p = next_ref w)) as [->|Hne].
    + rewrite lookup_insert_eq. now eexists.
    + rewrite lookup_insert_ne by congruence. now apply IHl.
Qed.

(** X3. In every world a process reaches, the two print hooks are installed
    exactly while an engine is: both are the default printers when the
    static pointer is not null, both are absent when it is null. *)
Theorem hooks_follow_engine w :
  reachable ENABLE_DES_METRICS w -> hooked w.
Proof. intros Hr. now destruct (reachable_sound w Hr). Qed.

(** X4. In every world a process reaches, the static pointer is null or
    names a live object, and no call of the facade dereferences a dead
    pointer, except [SetImplementation] when the caller hands it one. *)
Theorem never_dangling (o : op EventImpl EventId) w :
  reachable ENABLE_DES_METRICS w ->
  live w /\
  forall w', exec ENABLE_DES_METRICS o w = Undefined w' ->
    exists q, o = OpSetImplementation q /\ heap w !! q = None.
Proof.
  intros Hr. destruct (reachable_sound w Hr) as [Hl _].
  split; [exact Hl|]. intros w' HU.
  destruct (sound_exec o w Hl) as (_ & _ & H3).
  destruct (H3 w' HU) as (q & Hq & _ & Hd). now exists q.
Qed.

(** *** Calls in a row *)

(** X1. [GetImpl] builds at most once: when it has returned an engine, the
    engine is installed and a second call returns the same engine in the
    same world, building nothing. *)
Theorem GetImpl_idempotent w p w1 :
  GetImpl w = Done p w1 ->
  pimpl w1 = Some p /\ GetImpl w1 = Done p w1.
Proof.
  intros HG. assert (Hp1 : pimpl w1 = Some p).
  { destruct (pimpl w) as [q|] eqn:Hp.
    - rewrite (GetImpl_Some w q Hp) in HG. now injection HG as <- <-.
    - rewrite (GetImpl_None w Hp) in HG.
      destruct (impl_SetScheduler _ _) as [msg|[[] e']]; [discriminate|].
      now injection HG as <- <-. }
  split; [exact Hp1|]. now apply GetImpl_Some.
Qed.

(** X2. Once [Simulator::Destroy] has returned, the facade answers as if no
    engine had ever existed: a second [Destroy], [Cancel] and [Remove]
    return in the same world, [IsExpired] is [true] and [GetSystemId] is 0,
    none of them building an engine. *)
Theorem after_Destroy (id : EventId) w w1 :
  Destroy w = Done tt w1 ->
  Destroy w1 = Done tt w1 /\
  IsExpired id w1 = Done true w1 /\
  Cancel id w1 = Done tt w1 /\
  Remove id w1 = Done tt w1 /\
  GetSystemId w1 = Done 0 w1.
Proof.
  intros HD. destruct (Destroy_Done w w1 HD) as (Hp1 & _).
  unfold Destroy, IsExpired, Cancel, Remove, GetSystemId, bind, PeekImpl.
  now rewrite Hp1.
Qed.

(** X6. [Simulator::SetScheduler] called first in a process sets the
    scheduler of the new engine twice: [GetImpl] gives it the scheduler of
    [g_schedTypeImpl], then the call gives it the one asked for. *)
Theorem SetScheduler_first (f : ObjectFactory) w (e1 e2 : Engine) :
  pimpl w = None ->
  impl_SetScheduler (g_schedTypeImpl w) (Create (g_simTypeImpl w)) = inr (tt, e1) ->
  impl_SetScheduler f e1 = inr (tt, e2) ->
  exists w1, SetScheduler f w = Done tt w1 /\
    pimpl w1 = Some (next_ref w) /\
    heap w1 !! next_ref w = Some (mkObject e2 1) /\
    trace w1 = trace w ++ construction_steps (next_ref w)
                       ++ [ACall (next_ref w) MSetScheduler].
Proof.
  intros Hp H1 H2. unfold SetScheduler, bind. rewrite (GetImpl_None w Hp), H1.
  unfold invoke; cbn. rewrite lookup_insert_eq; cbn. rewrite H2.
  eexists. split; [reflexivity|]. cbn. split; [reflexivity|]. split.
  - apply lookup_insert_eq.
  - now rewrite <- app_assoc.
Qed.

(** *** Ownership of the engine *)

(** X7. [Simulator::Destroy] gives up exactly one reference to the engine
    installed, after the engine's own [Destroy]: the engine is deleted when
    the facade was its last owner and keeps one owner less otherwise; no
    other object of the store is touched. *)
Theorem Destroy_releases w w1 p (o : object Engine) :
  pimpl w = Some p -> heap w !! p = Some o -> Destroy w = Done tt w1 ->
  (exists e', impl_Destroy (obj_engine o) = inr (tt, e') /\
     heap w1 !! p = match obj_refs o with
                    | S (S n) => Some (mkObject e' (S n))
                    | _ => None
                    end) /\
  forall q, q <> p -> heap w1 !! q = heap w !! q.
Proof.
  intros Hp Ho HD. rewrite (Destroy_Some w p Hp), Ho in HD.
  destruct (impl_Destroy (obj_engine o)) as [msg|[[] e']]; [discriminate|].
  injection HD as <-. cbn. unfold released. split.
  - exists e'. split; [reflexivity|].
    destruct (obj_refs o) as [|[|n]];
      now rewrite ?lookup_delete_eq, ?lookup_insert_eq.
  - intros q Hq.
    destruct (obj_refs o) as [|[|n]];
      now rewrite ?lookup_delete_ne, ?lookup_insert_ne by congruence.
Qed.

(** X8. [SetImplementation] followed by [Destroy] is neutral for the owner
    of the engine: the object handed in is still in the store with the
    number of owners it had, and no other object has changed. *)
Theorem SetImplementation_Destroy_balanced w w1 w2 q (o : object Engine) :
  pimpl w = None -> heap w !! q = Some o -> (1 <= obj_refs o)%nat ->
  SetImplementation q w = Done tt w1 -> Destroy w1 = Done tt w2 ->
  (exists e, heap w2 !! q = Some (mkObject e (obj_refs o))) /\
  forall r, r <> q -> heap w2 !! r = heap w !! r.
Proof.
  intros Hp Ho Hrefs HS HD.
  assert (HL := SetImplementation_live q w o Hp Ho).
  destruct (impl_SetScheduler _ _) as [msg|[[] e']].
  - destruct HL as (w' & HL & _). rewrite HL in HS. discriminate HS.
  - rewrite HL in HS. injection HS as <-.
    rewrite (Destroy_Some (installed q o e' w) q eq_refl) in HD. cbn in HD.
    rewrite lookup_insert_eq in HD. cbn in HD.
    destruct (impl_Destroy e') as [msg|[[] e'']]; [discriminate|].
    injection HD as <-. cbn. unfold released. cbn.
    destruct (obj_refs o) as [|n]; [lia|]. split.
    + exists e''. apply lookup_insert_eq.
    + intros r Hr. now rewrite !lookup_insert_ne by congruence.
Qed.

(** X10. An engine obtained through [Simulator::GetImplementation] outlives
    [Simulator::Destroy]: the [Ptr] returned is one more owner, so the
    object is still in the store after the facade has released it. *)
Theorem GetImplementation_retains w p w1 w2 :
  (forall q o, pimpl w = Some q -> heap w !! q = Some o ->
     (1 <= obj_refs o)%nat) ->
  GetImplementation w = Done p w1 -> Destroy w1 = Done tt w2 ->
  pimpl w1 = Some p /\ is_Some (heap w2 !! p).
Proof.
  intros Hrefs HG HD. unfold GetImplementation, bind in HG.
  destruct (GetImpl w) as [q w0|msg w0|w0] eqn:HG0; try discriminate HG.
  destruct (GetImpl_idempotent w q w0 HG0) as [Hq0 _].
  assert (Hcount : forall o, heap w0 !! q = Some o -> (1 <= obj_refs o)%nat).
  { destruct (pimpl w) as [r|] eqn:Hp.
    - rewrite (GetImpl_Some w r Hp) in HG0. injection HG0 as <- <-.
      intros o. now apply Hrefs.
    - rewrite (GetImpl_None w Hp) in HG0.
      destruct (impl_SetScheduler _ _) as [msg|[[] e']]; [discriminate|].
      injection HG0 as <- <-. cbn. rewrite lookup_insert_eq.
      now intros o [= <-]. }
  unfold Ref in HG. destruct (heap w0 !! q) as [o|] eqn:Ho; [|discriminate].
  cbn in HG. injection HG as <- <-. split; [exact Hq0|].
  match type of HD with Destroy ?w' = _ =>
    rewrite (Destroy_Some w' q Hq0) in HD end.
  cbn in HD. rewrite lookup_insert_eq in HD. cbn in HD.
  destruct (impl_Destroy (obj_engine o)) as [msg|[[] e']]; [discriminate|].
  injection HD as <-. cbn. unfold released. cbn.
  specialize (Hcount o eq_refl). destruct (obj_refs o) as [|n]; [lia|].
  rewrite lookup_insert_eq. now eexists.
Qed.

(** X11. An engine the facade built for itself is deleted by
    [Simulator::Destroy]: after [GetImpl] and [Destroy] the store is the one
    before the engine was built, the static pointer is null and both print
    hooks are removed. *)
Theorem GetImpl_Destroy_restores w p w1 w2 :
  wf w -> pimpl w = None ->
  GetImpl w = Done p w1 -> Destroy w1 = Done tt w2 ->
  heap w2 = heap w /\ pimpl w2 = None /\
  timePrinter w2 = None /\ nodePrinter w2 = None.
Proof.
  intros Hwf Hp HG HD. rewrite (GetImpl_None w Hp) in HG.
  destruct (impl_SetScheduler _ _) as [msg|[[] e']]; [discriminate|].
  injection HG as <- <-.
  match type of HD with Destroy ?w' = _ =>
    rewrite (Destroy_Some w' (next_ref w) eq_refl) in HD end.
  cbn in HD. rewrite lookup_insert_eq in HD. cbn in HD.
  destruct (impl_Destroy e') as [msg|[[] e'']]; [discriminate|].
  injection HD as <-. cbn. unfold released. cbn.
  split; [|now repeat split].
  rewrite delete_insert_eq. apply delete_id.
  destruct (heap w !! next_ref w) as [x|] eqn:Hx; [|reflexivity].
  assert (next_ref w < next_ref w)%positive by (apply Hwf; now rewrite Hx).
  lia.
Qed.

(** X9. The one opportunity to inject an engine.  After an operation that
    needs the engine has been called with none installed, however it ended,
    and after a [SetImplementation] that returned, [SetImplementation] is
    the fatal error; after a guarded operation called with none installed
    it behaves as it would have before. *)
Theorem SetImplementation_refused (o : op EventImpl EventId) (q q' : ref) w :
  (pimpl w = None -> needs_engine o = true ->
   SetImplementation q (final (exec ENABLE_DES_METRICS o w)) =
     Fatal SetImplementation_late (final (exec ENABLE_DES_METRICS o w))) /\
  (forall w1, SetImplementation q w = Done tt w1 ->
   SetImplementation q' w1 = Fatal SetImplementation_late w1) /\
  (pimpl w = None -> needs_engine o = false ->
   (forall r, o <> OpSetImplementation r) ->
   SetImplementation q (final (exec ENABLE_DES_METRICS o w)) =
     SetImplementation q w).
Proof.
  split; [|split].
  - intros Hp Ho. destruct (builds_exec ENABLE_DES_METRICS o Ho w Hp) as [H1 _].
    now apply (SetImplementation_Some q _ (next_ref w)).
  - intros w1 HS. apply (SetImplementation_Some q' w1 q).
    destruct (pimpl w) as [p|] eqn:Hp.
    + rewrite (SetImplementation_Some q w p Hp) in HS. discriminate HS.
    + destruct (heap w !! q) as [ob|] eqn:Hob.
      * destruct (SetImplementation_None q w ob Hp Hob) as [H1 _].
        now rewrite HS in H1.
      * rewrite (SetImplementation_dead q w Hp Hob) in HS. discriminate HS.
  - intros Hp Ho Hne.
    destruct (guarded_without_engine ENABLE_DES_METRICS o w Hp Ho Hne)
      as [v ->].
    reflexivity.
Qed.

(** *** The metrics are an observation *)

Lemma forward_erased {A} m (f : Engine -> eres Engine A) w1 w2 :
  erase w1 = erase w2 ->
  erased (bind GetImpl (fun p => invoke p m f) w1) =
  erased (bind GetImpl (fun p => invoke p m f) w2).
Proof.
  destruct w1 as [pi1 h1 n1 gs1 gd1 tp1 np1 t1],
           w2 as [pi2 h2 n2 gs2 gd2 tp2 np2 t2].
  unfold erase; cbn. intros [= -> -> -> -> -> -> ->].
  unfold bind. destruct pi2 as [p|].
  - match goal with
    | |- erased (match GetImpl ?wa with _ => _ end) =
         erased (match GetImpl ?wb with _ => _ end) =>
        rewrite (GetImpl_Some wa p eq_refl), (GetImpl_Some wb p eq_refl)
    end.
    unfold invoke; cbn.
    destruct (h2 !! p) as [o|]; [|reflexivity].
    now destruct (f (obj_engine o)) as [msg|[r e']].
  - match goal with
    | |- erased (match GetImpl ?wa with _ => _ end) =
         erased (match GetImpl ?wb with _ => _ end) =>
        rewrite (GetImpl_None wa eq_refl), (GetImpl_None wb eq_refl)
    end.
    cbn.
    destruct (impl_SetScheduler gd2 (Create gs2)) as [msg|[[] e']];
      [reflexivity|].
    unfold invoke; cbn. rewrite !lookup_insert_eq; cbn.
    now destruct (f e') as [msg|[r e'']].
Qed.

Section PureClock.

(** The engine's [Now] is a const member function that returns: it leaves
    the engine as it was. *)
Hypothesis Now_pure : forall e : Engine, exists t, impl_Now e = inr (t, e).

Lemma invoke_Now_pure p w (o : object Engine) :
  heap w !! p = Some o ->
  exists t w', invoke p MNow impl_Now w = Done t w' /\ erase w' = erase w.
Proof.
  intros Ho. unfold invoke. rewrite Ho.
  destruct (Now_pure (obj_engine o)) as [t ->].
  eexists t, _. split; [reflexivity|]. unfold erase; cbn.
  rewrite insert_id; [reflexivity|]. now destruct o.
Qed.

Lemma metered_transparent {A} (record : Time -> action) m
  (f : Engine -> eres Engine A) w :
  erased (bind (bind Now (fun now w' => Done tt (emit (record now) w')))
            (fun _ => bind GetImpl (fun p => invoke p m f)) w) =
  erased (bind GetImpl (fun p => invoke p m f) w).
Proof.
  unfold Now, bind.
  destruct (GetImpl w) as [p w0|msg w0|w0] eqn:HG; [|reflexivity..].
  destruct (GetImpl_idempotent w p w0 HG) as [Hp0 HG0].
  destruct (heap w0 !! p) as [o|] eqn:Ho.
  - destruct (invoke_Now_pure p w0 o Ho) as (t & w0' & -> & He).
    pose proof (forward_erased m f (emit (record t) w0') w0 He) as HF.
    unfold bind in HF. now rewrite HG0 in HF.
  - unfold invoke. now rewrite Ho.
Qed.

(** X5. Compiling the metrics in changes nothing a simulation can depend
    on: when the engine's [Now] leaves the engine as it was, every
    operation of the facade ends the same way with and without
    [ENABLE_DES_METRICS], with the same result and the same world, trace
    apart; also when the call that reads the clock is the one that builds
    the engine. *)
Theorem metrics_transparent (o : op EventImpl EventId) w :
  erased (exec true o w) = erased (exec false o w).
Proof.
  assert (Hret : forall {A} (inj : A -> value EventId) (c1 c2 : M Engine A),
             erased (c1 w) = erased (c2 w) ->
             erased (returning inj c1 w) = erased (returning inj c2 w)).
  { intros A inj c1 c2 Hc. unfold returning, bind, ret.
    destruct (c1 w), (c2 w); cbn in Hc |- *; congruence. }
  destruct o; try reflexivity; cbn [exec]; apply Hret.
  - (* Schedule *)
    apply (metered_transparent (fun now => ADesTrace now delay)).
  - (* ScheduleNow *)
    apply (metered_transparent (fun now => ADesTrace now 0)).
  - (* ScheduleWithContext *)
    apply (metered_transparent
             (fun now => ADesTraceWithContext context now delay)).
Qed.

End PureClock.

(** X12. With the metrics compiled in and an engine installed, a scheduling
    call reads the engine's clock and records (now, delay) before it
    forwards, so the record is made whether or not the engine then accepts
    the event: [Schedule] records its delay, [ScheduleNow] records 0, and
    [ScheduleWithContext] records its context as well. *)
Theorem metrics_recorded_first (context : Z) (delay : Time) (ev : EventImpl)
  w p (o : object Engine) (t : Time) (e : Engine) :
  pimpl w = Some p -> heap w !! p = Some o ->
  impl_Now (obj_engine o) = inr (t, e) ->
  trace (final (Schedule true delay ev w)) =
    trace w ++ [ACall p MNow; ADesTrace t delay; ACall p MSchedule] /\
  trace (final (ScheduleNow true ev w)) =
    trace w ++ [ACall p MNow; ADesTrace t 0; ACall p MScheduleNow] /\
  trace (final (ScheduleWithContext true context delay ev w)) =
    trace w ++ [ACall p MNow; ADesTraceWithContext context t delay;
                ACall p MScheduleWithContext].
Proof.
  intros Hp Ho HNow.
  unfold Schedule, ScheduleNow, ScheduleWithContext, DoSchedule, DoScheduleNow,
    Now, DesTrace, DesTraceWithContext, bind.
  rewrite (GetImpl_Some w p Hp). unfold invoke at 1 3 5. rewrite Ho, HNow.
  unfold GetImpl, bind, PeekImpl, ret; cbn. rewrite Hp.
  unfold invoke; cbn. rewrite lookup_insert_eq; cbn.
  split; [|split].
  - destruct (impl_Schedule delay ev e) as [msg|[r e']]; cbn;
      now rewrite <- !app_assoc.
  - destruct (impl_ScheduleNow ev e) as [msg|[r e']]; cbn;
      now rewrite <- !app_assoc.
  - destruct (impl_ScheduleWithContext context delay ev e) as [msg|[r e']];
      cbn; now rewrite <- !app_assoc.
Qed.

End Compositions.

(** ** The facade over the reference engine *)

Lemma Reference_ScheduleNow_law (ev : Reference.EventImpl) (e : Reference.Engine) :
  impl_ScheduleNow ev e = impl_Schedule 0 ev e /\
  impl_Schedule 0 ev e =
    inr (Reference.insert_at (Reference.e_now e) (Reference.e_context e) ev e).
Proof.
  cbn. unfold Reference.ScheduleNow, Reference.Schedule.
  now rewrite Z.add_0_r, Z.ltb_irrefl.
Qed.

(** C8. Over the reference engine, [Simulator::ScheduleNow (ev)] and
    [Simulator::Schedule (0, ev)] end the same way, with the same [EventId]
    and the same world: pointer, store (so the same engine state, with the
    event inserted at the current time for the current context), hooks,
    and the same trace up to the name of the member function called;
    whether or not the metrics are compiled in, and whether or not the
    engine exists yet. *)
Theorem ScheduleNow_is_Schedule_0 (metrics : bool) (ev : Reference.EventImpl)
  (w : World Reference.Engine) :
  observed (ScheduleNow metrics ev w) = observed (Schedule metrics 0 ev w) /\
  forall e : Reference.Engine,
    impl_ScheduleNow ev e =
      inr (Reference.insert_at (Reference.e_now e) (Reference.e_context e) ev e) /\
    impl_Schedule 0 ev e =
      inr (Reference.insert_at (Reference.e_now e + 0) (Reference.e_context e) ev e).
Proof.
  split.
  - apply observed_ScheduleNow. intros ev' e.
    apply (Reference_ScheduleNow_law ev' e).
  - intros e. split; [reflexivity|]. cbn. unfold Reference.Schedule.
    now rewrite Z.add_0_r, Z.ltb_irrefl.
Qed.


(** *** The theorems at work *)

Lemma SetImplementation_once_witness :
  (pimpl Scenario.injected = Some 1%positive /\
   SetImplementation 1%positive Scenario.injected =
     Fatal SetImplementation_late Scenario.injected) /\
  (pimpl Scenario.with_object = None /\
   pimpl (final (SetImplementation 1%positive Scenario.with_object))
     = Some 1%positive /\
   is_done (SetImplementation 1%positive Scenario.with_object) = true).
Proof.
  split.
  - split; [reflexivity|].
    apply (proj1 (SetImplementation_once 1%positive Scenario.injected)
             1%positive).
    reflexivity.
  - split; [reflexivity|].
    pose proof (proj2 (SetImplementation_once 1%positive Scenario.with_object)
                  (mkObject (Reference.new_engine DefaultSimulatorImpl_name) 1)
                  eq_refl eq_refl) as [H1 H2].
    split; [exact H1|].
    now rewrite (H2 (Reference.mkEngine DefaultSimulatorImpl_name
                       (Some MapScheduler_name) [] [] 0 0 0 0 false [])
                   eq_refl).
Defined.


Lemma IsExpired_without_engine_witness :
  pimpl Scenario.start = None /\
  IsExpired Scenario.first_id Scenario.start = Done true Scenario.start.
Proof.
  split; [reflexivity|]. apply IsExpired_without_engine. reflexivity.
Defined.

Lemma Cancel_Remove_without_engine_witness :
  pimpl Scenario.torn_down = None /\
  Cancel Scenario.first_id Scenario.torn_down = Done tt Scenario.torn_down /\
  Remove Scenario.first_id Scenario.torn_down = Done tt Scenario.torn_down.
Proof.
  split; [reflexivity|]. apply Cancel_Remove_without_engine. reflexivity.
Defined.

Lemma Destroy_without_engine_witness :
  pimpl Scenario.start = None /\
  Destroy Scenario.start = Done tt Scenario.start.
Proof.
  split; [reflexivity|].
  apply (proj1 (Destroy_without_engine Scenario.start eq_refl)).
Defined.

Lemma hooks_order_witness :
  (pimpl Scenario.start = None /\
   exists t, trace (final (GetImpl Scenario.start)) = trace Scenario.start ++ t /\
     t `prefix_of` construction_steps 1) /\
  (pimpl Scenario.lazily_built = Some 1%positive /\
   exists t, trace (final (Destroy Scenario.lazily_built))
               = trace Scenario.lazily_built ++ t /\
     t `prefix_of` destruction_steps 1).
Proof.
  split.
  - split; [reflexivity|].
    destruct (proj1 (hooks_order Scenario.start) eq_refl) as (t & H1 & _ & H2 & _).
    now exists t.
  - split; [reflexivity|].
    destruct (proj2 (hooks_order Scenario.lazily_built) 1%positive eq_refl)
      as (t & H1 & _ & H2 & _).
    now exists t.
Defined.

Lemma Destroy_then_new_engine_witness :
  wf Scenario.lazily_built /\
  Destroy Scenario.lazily_built = Done tt Scenario.restarted /\
  pimpl Scenario.lazily_built = Some 1%positive /\
  pimpl Scenario.restarted = None /\
  pimpl (final (exec false OpIsFinished Scenario.restarted)) = Some 2%positive.
Proof.
  assert (Hwf : wf Scenario.lazily_built)
    by apply (wf_run false [OpNow] Scenario.start wf_initial).
  assert (HD : Destroy Scenario.lazily_built = Done tt Scenario.restarted)
    by (vm_compute; reflexivity).
  split; [exact Hwf|]. split; [exact HD|].
  split; [vm_compute; reflexivity|].
  destruct (Destroy_then_new_engine false Scenario.lazily_built
              Scenario.restarted OpIsFinished Hwf HD eq_refl)
    as (H1 & H2 & _).
  split; [exact H1|]. rewrite H2. vm_compute. reflexivity.
Defined.

Lemma single_engine_witness :
  pimpl Scenario.start = None /\
  (exists v, exec true OpGetSystemId Scenario.start = Done v Scenario.start) /\
  pimpl (run true Scenario.simulation (final (exec true OpNow Scenario.start)))
    = Some 1%positive /\
  pimpl Scenario.injected = Some 1%positive /\
  pimpl (run true Scenario.simulation Scenario.injected) = Some 1%positive /\
  (let wi := run true Scenario.simulation Scenario.injected in
   is_Some (heap wi !! 1%positive) /\
   exec true (OpCancel Scenario.first_id) wi =
     invoke 1%positive MCancel
       (as_value (fun _ => VVoid) (impl_Cancel Scenario.first_id)) wi /\
   trace (final (exec true (OpCancel Scenario.first_id) wi))
     = trace wi ++ [ACall 1%positive MCancel]) /\
  (exists w', GetImplementation Scenario.injected = Done 1%positive w').
Proof.
  assert (Hsim : Forall (fun o => is_Destroy o = false) Scenario.simulation)
    by (repeat constructor).
  assert (Hsim' : Forall (fun o : op Reference.EventImpl Reference.EventId =>
                            is_Destroy o = false)
                    (Scenario.simulation ++ [OpCancel Scenario.first_id]))
    by (repeat constructor).
  assert (Hinj : pimpl Scenario.injected = Some 1%positive)
    by (vm_compute; reflexivity).
  assert (Hlive : is_Some (heap Scenario.injected !! 1%positive))
    by (vm_compute; eexists; reflexivity).
  assert (Hlive' : is_Some (heap (run true Scenario.simulation
                                    Scenario.injected) !! 1%positive))
    by (vm_compute; eexists; reflexivity).
  split; [reflexivity|].
  split; [|split; [|split; [exact Hinj|split; [|split]]]].
  - destruct (single_engine true OpGetSystemId [] Scenario.start)
      as (_ & H & _).
    apply H; [reflexivity|reflexivity|discriminate].
  - destruct (single_engine true OpNow Scenario.simulation Scenario.start)
      as (_ & _ & H & _).
    destruct (H eq_refl eq_refl Hsim) as (_ & _ & H3 & _). exact H3.
  - destruct (single_engine true OpNow Scenario.simulation Scenario.injected)
      as (_ & _ & _ & H & _).
    destruct (H 1%positive Hinj Hsim) as [H1 _]. exact H1.
  - destruct (single_engine true OpNow
                (Scenario.simulation ++ [OpCancel Scenario.first_id])
                Scenario.start)
      as (_ & _ & _ & _ & H & _).
    destruct (H Scenario.injected 1%positive Scenario.simulation
                (OpCancel Scenario.first_id) [] MCancel _
                Hinj Hsim' eq_refl eq_refl) as (_ & H2 & _ & H4).
    split; [exact Hlive'|]. split; [exact H2|]. exact (H4 eq_refl Hlive').
  - destruct (single_engine true OpNow [] Scenario.injected)
      as (_ & _ & _ & _ & _ & H).
    destruct (H 1%positive Hinj Hlive) as (w' & H1 & _). now exists w'.
Defined.

Lemma SetImplementation_after_Destroy_witness :
  Destroy Scenario.injected = Done tt Scenario.torn_down /\
  heap Scenario.torn_down !! 1%positive =
    Some (mkObject (Reference.mkEngine DefaultSimulatorImpl_name None
                      [] [] 0 0 0 0 false []) 1) /\
  pimpl (final (SetImplementation 1%positive Scenario.torn_down))
    = Some 1%positive /\
  is_done (SetImplementation 1%positive Scenario.torn_down) = true.
Proof.
  assert (HD : Destroy Scenario.injected = Done tt Scenario.torn_down)
    by (vm_compute; reflexivity).
  assert (Ho : heap Scenario.torn_down !! 1%positive =
    Some (mkObject (Reference.mkEngine DefaultSimulatorImpl_name None
                      [] [] 0 0 0 0 false []) 1))
    by (vm_compute; reflexivity).
  split; [exact HD|]. split; [exact Ho|].
  destruct (SetImplementation_after_Destroy Scenario.injected
              Scenario.torn_down 1%positive _ HD Ho) as [H1 H2].
  split; [exact H1|].
  destruct (H2 (Reference.mkEngine DefaultSimulatorImpl_name
                  (Some MapScheduler_name) [] [] 0 0 0 0 false [])
              eq_refl) as [-> _].
  reflexivity.
Defined.

(** *** Invariants and compositions at work *)

Lemma GetImpl_idempotent_witness :
  GetImpl Scenario.start = Done 1%positive Scenario.built /\
  pimpl Scenario.built = Some 1%positive /\
  GetImpl Scenario.built = Done 1%positive Scenario.built.
Proof.
  assert (HG : GetImpl Scenario.start = Done 1%positive Scenario.built)
    by (vm_compute; reflexivity).
  split; [exact HG|].
  exact (GetImpl_idempotent Scenario.start 1%positive Scenario.built HG).
Defined.

Lemma after_Destroy_witness :
  Destroy Scenario.lazily_built = Done tt Scenario.restarted /\
  Destroy Scenario.restarted = Done tt Scenario.restarted /\
  IsExpired Scenario.first_id Scenario.restarted = Done true Scenario.restarted.
Proof.
  assert (HD : Destroy Scenario.lazily_built = Done tt Scenario.restarted)
    by (vm_compute; reflexivity).
  split; [exact HD|].
  destruct (after_Destroy Scenario.first_id Scenario.lazily_built
              Scenario.restarted HD) as (H1 & H2 & _).
  split; [exact H1|exact H2].
Defined.

Lemma lazily_built_reachable : reachable false Scenario.lazily_built.
Proof.
  apply (reach_exec false OpNow Scenario.start (VTime 0)).
  - apply reach_initial.
  - vm_compute. reflexivity.
Defined.

Lemma hooks_follow_engine_witness :
  reachable false Scenario.lazily_built /\ hooked Scenario.lazily_built.
Proof.
  split; [exact lazily_built_reachable|].
  exact (hooks_follow_engine false Scenario.lazily_built
           lazily_built_reachable).
Defined.

Lemma never_dangling_witness :
  reachable false Scenario.lazily_built /\
  live Scenario.lazily_built /\
  forall w', exec false OpRun Scenario.lazily_built <> Undefined w'.
Proof.
  split; [exact lazily_built_reachable|].
  destruct (never_dangling false OpRun Scenario.lazily_built
              lazily_built_reachable) as [H1 H2].
  split; [exact H1|]. intros w' HU. destruct (H2 w' HU) as (q & Hq & _).
  discriminate Hq.
Defined.

Lemma Reference_Now_pure (e : Reference.Engine) :
  exists t, impl_Now e = inr (t, e).
Proof. now exists (Reference.e_now e). Defined.

Lemma metrics_transparent_witness :
  (forall e : Reference.Engine, exists t, impl_Now e = inr (t, e)) /\
  erased (exec true (OpSchedule 5 (Reference.Callback 1)) Scenario.start) =
  erased (exec false (OpSchedule 5 (Reference.Callback 1)) Scenario.start).
Proof.
  split; [exact Reference_Now_pure|].
  exact (metrics_transparent Reference_Now_pure
           (OpSchedule 5 (Reference.Callback 1)) Scenario.start).
Defined.

Lemma SetScheduler_first_witness :
  pimpl Scenario.start = None /\
  exists w1, SetScheduler "ns3::HeapScheduler" Scenario.start = Done tt w1 /\
    pimpl w1 = Some 1%positive.
Proof.
  split; [reflexivity|].
  assert (H1 : impl_SetScheduler (g_schedTypeImpl Scenario.start)
                 (Create (g_simTypeImpl Scenario.start))
               = inr (tt, Scenario.ready_engine))
    by (vm_compute; reflexivity).
  assert (H2 : impl_SetScheduler "ns3::HeapScheduler" Scenario.ready_engine
               = inr (tt, Reference.mkEngine DefaultSimulatorImpl_name
                            (Some "ns3::HeapScheduler"%string)
                            [] [] 0 0 0 0 false []))
    by (vm_compute; reflexivity).
  destruct (SetScheduler_first "ns3::HeapScheduler" Scenario.start
              _ _ eq_refl H1 H2) as (w1 & H3 & H4 & _).
  now exists w1.
Defined.

Lemma Destroy_releases_witness :
  pimpl Scenario.built = Some 1%positive /\
  heap Scenario.built !! 1%positive = Some (mkObject Scenario.ready_engine 1) /\
  Destroy Scenario.built = Done tt Scenario.built_gone /\
  heap Scenario.built_gone !! 1%positive = None.
Proof.
  assert (Hp : pimpl Scenario.built = Some 1%positive)
    by (vm_compute; reflexivity).
  assert (Ho : heap Scenario.built !! 1%positive =
               Some (mkObject Scenario.ready_engine 1))
    by (vm_compute; reflexivity).
  assert (HD : Destroy Scenario.built = Done tt Scenario.built_gone)
    by (vm_compute; reflexivity).
  split; [exact Hp|]. split; [exact Ho|]. split; [exact HD|].
  destruct (Destroy_releases Scenario.built Scenario.built_gone 1%positive
              _ Hp Ho HD) as [(e' & _ & H) _].
  exact H.
Defined.

Lemma SetImplementation_Destroy_balanced_witness :
  pimpl Scenario.with_object = None /\
  heap Scenario.with_object !! 1%positive
    = Some (mkObject Scenario.new_engine 1) /\
  SetImplementation 1%positive Scenario.with_object
    = Done tt Scenario.injected /\
  Destroy Scenario.injected = Done tt Scenario.torn_down /\
  exists e, heap Scenario.torn_down !! 1%positive = Some (mkObject e 1).
Proof.
  assert (Ho : heap Scenario.with_object !! 1%positive =
               Some (mkObject Scenario.new_engine 1))
    by (vm_compute; reflexivity).
  assert (HS : SetImplementation 1%positive Scenario.with_object
               = Done tt Scenario.injected)
    by (vm_compute; reflexivity).
  assert (HD : Destroy Scenario.injected = Done tt Scenario.torn_down)
    by (vm_compute; reflexivity).
  split; [reflexivity|]. split; [exact Ho|]. split; [exact HS|].
  split; [exact HD|].
  destruct (SetImplementation_Destroy_balanced Scenario.with_object
              Scenario.injected Scenario.torn_down 1%positive _
              eq_refl Ho (le_n 1) HS HD) as [H _].
  exact H.
Defined.

Lemma GetImplementation_retains_witness :
  GetImplementation Scenario.start = Done 1%positive Scenario.obtained /\
  Destroy Scenario.obtained = Done tt Scenario.obtained_gone /\
  is_Some (heap Scenario.obtained_gone !! 1%positive).
Proof.
  assert (HG : GetImplementation Scenario.start
               = Done 1%positive Scenario.obtained)
    by (vm_compute; reflexivity).
  assert (HD : Destroy Scenario.obtained = Done tt Scenario.obtained_gone)
    by (vm_compute; reflexivity).
  split; [exact HG|]. split; [exact HD|].
  assert (Hrefs : forall q (o : object Reference.Engine),
             pimpl Scenario.start = Some q ->
             heap Scenario.start !! q = Some o -> (1 <= obj_refs o)%nat)
    by (intros q o Hq; discriminate Hq).
  exact (proj2 (GetImplementation_retains Scenario.start 1%positive
                  Scenario.obtained Scenario.obtained_gone Hrefs HG HD)).
Defined.

Lemma GetImpl_Destroy_restores_witness :
  wf Scenario.start /\ pimpl Scenario.start = None /\
  GetImpl Scenario.start = Done 1%positive Scenario.built /\
  Destroy Scenario.built = Done tt Scenario.built_gone /\
  heap Scenario.built_gone = heap Scenario.start.
Proof.
  assert (HG : GetImpl Scenario.start = Done 1%positive Scenario.built)
    by (vm_compute; reflexivity).
  assert (HD : Destroy Scenario.built = Done tt Scenario.built_gone)
    by (vm_compute; reflexivity).
  split; [exact wf_initial|]. split; [reflexivity|]. split; [exact HG|].
  split; [exact HD|].
  exact (proj1 (GetImpl_Destroy_restores Scenario.start 1%positive
                  Scenario.built Scenario.built_gone wf_initial eq_refl
                  HG HD)).
Defined.

Lemma SetImplementation_refused_witness :
  (pimpl Scenario.start = None /\
   is_done (SetImplementation 1%positive
              (final (exec false OpNow Scenario.start))) = false) /\
  (SetImplementation 1%positive Scenario.with_object
     = Done tt Scenario.injected /\
   SetImplementation 1%positive Scenario.injected
     = Fatal SetImplementation_late Scenario.injected) /\
  SetImplementation 1%positive
    (final (exec false OpGetSystemId Scenario.with_object))
    = SetImplementation 1%positive Scenario.with_object.
Proof.
  assert (HS : SetImplementation 1%positive Scenario.with_object
               = Done tt Scenario.injected)
    by (vm_compute; reflexivity).
  split; [|split].
  - split; [reflexivity|].
    destruct (SetImplementation_refused false OpNow 1%positive 1%positive
                Scenario.start) as (H & _).
    now rewrite (H eq_refl eq_refl).
  - split; [exact HS|].
    destruct (SetImplementation_refused false OpNow 1%positive 1%positive
                Scenario.with_object) as (_ & H & _).
    exact (H Scenario.injected HS).
  - destruct (SetImplementation_refused false OpGetSystemId 1%positive
                1%positive Scenario.with_object) as (_ & _ & H).
    apply H; [reflexivity|reflexivity|discriminate].
Defined.

Lemma metrics_recorded_first_witness :
  pimpl Scenario.built = Some 1%positive /\
  trace (final (Schedule true 5 (Reference.Callback 1) Scenario.built)) =
    trace Scenario.built ++
      [ACall 1%positive MNow; ADesTrace 0 5; ACall 1%positive MSchedule].
Proof.
  assert (Hp : pimpl Scenario.built = Some 1%positive)
    by (vm_compute; reflexivity).
  assert (Ho : heap Scenario.built !! 1%positive =
               Some (mkObject Scenario.ready_engine 1))
    by (vm_compute; reflexivity).
  split; [exact Hp|].
  exact (proj1 (metrics_recorded_first 0 5 (Reference.Callback 1)
                  Scenario.built 1%positive
                  (mkObject Scenario.ready_engine 1) 0 Scenario.ready_engine
                  Hp Ho eq_refl)).
Defined.
